(** * DummyPngDecoder: a shallow embedding of [pngDecoder.c]

    The decoder is one C translation unit.  Its functions are embedded
    here one by one, in the order of the source, over

    - bytes as [Byte.byte] and [unsigned int] / [unsigned long] values as
      [Z] with the wrap-around written out;
    - memory seen through a pointer as a total map from offsets to bytes:
      the C code never carries a buffer length next to a pointer, so what
      follows the last byte of an allocation is part of the state;
    - what C leaves indeterminate (the contents of a fresh [malloc] block,
      of a local that is declared and not initialised) as an argument of
      the function that reads it;
    - the C library and zlib ([malloc], [crc32], [uncompress]) as
      parameters of the development;
    - [return -1] after an [fprintf(stderr, ...)] as an error value that
      names the message, and the three places where the code goes on with
      a pointer to a released block, a null pointer or a pointer that was
      never assigned as error values of their own: a run is not defined
      from there;
    - the loops of [main] with a bound on their rounds, [None] when the
      bound is reached. *)

From Stdlib Require Import ZArith List Lia Bool.
From Stdlib Require Import Strings.Byte.
Import ListNotations.
Open Scope Z_scope.

(** ** Machine integers and bytes *)

(** [unsigned int] is 32 bits wide ([ReadChunk] copies exactly four bytes
    into one). *)
Definition UINT_MOD : Z := 2 ^ 32.

Definition u32 (z : Z) : Z := z mod UINT_MOD.

(** The value of an [unsigned char]. *)
Definition byte_val (b : byte) : Z := Z.of_N (Byte.to_N b).

(** The [unsigned char] holding [z mod 256]. *)
Definition mk_byte (z : Z) : byte :=
  match Byte.of_N (Z.to_N (z mod 256)) with
  | Some b => b
  | None => x00
  end.

(** ** Memory *)

(** What a [const unsigned char*] gives access to: the byte at every
    offset from the pointer. *)
Definition memory : Type := Z -> byte.

(** The [n] bytes that [memcpy(dst, p + off, n)] copies out of [p]. *)
Definition memcpy_from (m : memory) (off n : Z) : list byte :=
  map (fun i => m (off + Z.of_nat i)) (seq 0 (Z.to_nat n)).

(** [memcpy(p + off, src, n)] seen from [p]: the bytes of [src] land at
    [off, off + |src|), the rest of the memory is unchanged. *)
Definition memcpy_to (m : memory) (off : Z) (src : list byte) : memory :=
  fun i =>
    if (off <=? i) && (i <? off + Z.of_nat (length src))
    then nth (Z.to_nat (i - off)) src x00
    else m i.

(** A buffer of [length buffer] bytes obtained from [malloc] and filled
    with [buffer]; [beyond] is whatever the address space holds after its
    last byte. *)
Definition buffer_memory (buffer : list byte) (beyond : memory) : memory :=
  fun i =>
    if (0 <=? i) && (i <? Z.of_nat (length buffer))
    then nth (Z.to_nat i) buffer x00
    else beyond i.

(** Four bytes read as an [unsigned int] whose first byte is the least
    significant one, and as one whose first byte is the most significant. *)
Definition le32 (bs : list byte) : Z :=
  match bs with
  | [b0; b1; b2; b3] =>
      byte_val b0 + byte_val b1 * 2 ^ 8 + byte_val b2 * 2 ^ 16 + byte_val b3 * 2 ^ 24
  | _ => 0
  end.

Definition be32 (bs : list byte) : Z :=
  match bs with
  | [b0; b1; b2; b3] =>
      byte_val b0 * 2 ^ 24 + byte_val b1 * 2 ^ 16 + byte_val b2 * 2 ^ 8 + byte_val b3
  | _ => 0
  end.

(** The four bytes of [v] on the wire, most significant first. *)
Definition be32_bytes (v : Z) : list byte :=
  [mk_byte (v / 2 ^ 24); mk_byte (v / 2 ^ 16); mk_byte (v / 2 ^ 8); mk_byte v].

(** [unsigned int ToLittleEndian(const unsigned int value)] *)
Definition ToLittleEndian (value : Z) : Z :=
  Z.lor (Z.lor (Z.lor (Z.shiftr (Z.land value 0xFF000000) 24)
                      (Z.shiftr (Z.land value 0x00FF0000) 8))
               (u32 (Z.shiftl (Z.land value 0x0000FF00) 8)))
        (u32 (Z.shiftl (Z.land value 0x000000FF) 24)).

(** ** C strings *)

(** [strcmp] on two character arrays: the sign of the first difference,
    0 when both reach their NUL together. *)
Fixpoint strcmp (a b : list byte) : Z :=
  match a, b with
  | x :: a', y :: b' =>
      if Byte.eqb x y
      then (if Byte.eqb x x00 then 0 else strcmp a' b')
      else byte_val x - byte_val y
  | _, _ => 0
  end.

Definition PNG_SIGNATURE_LENGTH : Z := 8.
Definition CHUNK_DATA_LENGTH : Z := 4.
Definition CHUNK_TYPE_LENGTH : Z := 4.
Definition CHUNK_CRC_LENGTH : Z := 4.
(** The string literals IEND and IDAT as the arrays they denote. *)
Definition LAST_CHUNK_TYPE_SIGNATURE : list byte := [x49; x45; x4e; x44; x00].
Definition DATA_CHUNK_TYPE : list byte := [x49; x44; x41; x54; x00].
Definition IHDR_LENGTH : Z := 13.
Definition IHDR_WIDTH_BYTES : Z := 4.
Definition IHDR_HEIGHT_BYTES : Z := 4.
Definition IHDR_OTHER_BYTES : Z := 1.

(** [const unsigned char pngSignature[]] of [FillBuffer]. *)
Definition pngSignature : list byte :=
  map mk_byte [137; 80; 78; 71; 13; 10; 26; 10].

(** [memcmp(a, b, n)] on two arrays of [n] bytes: the sign of the first
    difference, 0 when there is none. *)
Fixpoint memcmp (a b : list byte) : Z :=
  match a, b with
  | x :: a', y :: b' =>
      if Byte.eqb x y then memcmp a' b' else byte_val x - byte_val y
  | _, _ => 0
  end.

(** ** Results *)

(** Every failure that the program reports is an [fprintf(stderr, ...)]
    followed by [return -1]; an error value names the message that was
    printed.  [NoMessage] is the [return -1] of [main] that no message
    comes before.  The last three are no failures that the program
    reports: they mark the points from which the behaviour of a run is
    undefined. *)
Inductive error : Type :=
  | CantOpenFile                 (* Error: Can't open the file! *)
  | CantAllocateBuffer           (* Error: Unable to allocate enough memory! *)
  | ReadingWentWrong             (* Error: Something in the reading went wrong! *)
  | InvalidPngSignature          (* Error: Invalid PNG signature! *)
  | CantAllocateChunkData        (* Error: Unable to allocate enough memory for chunk data! *)
  | ChecksumFailed (crc checksum : Z)
                                 (* Error: Checksum failed! %u != %u *)
  | CantReallocateChunkArray     (* Error: Unable to reallocate memory for chunk dynamic array! *)
  | IhdrTooShort                 (* Error: IHDR chunk data length is less than %d! *)
  | IhdrWidthZero                (* Error: IHDR width less/equal zero! *)
  | IhdrHeightZero               (* Error: IHDR height less/equal zero! *)
  | IhdrInvalidBitDepth          (* Error: Invalid IHDR bit depth! *)
  | IhdrInvalidColorType         (* Error: Invalid IHDR color type! *)
  | IhdrInvalidPair              (* Error: IHDR color type and bit depth invalid pair! *)
  | IhdrCompressionMethod        (* Error: IHDR compression method not zero. ... *)
  | IhdrFilterMethod             (* Error: IHDR filter method not zero. ... *)
  | IhdrInterlaceMethod          (* Error: IHDR interlace method not valid! *)
  | CantAllocateCompressedSource (* Error: Unable to allocate enough memory for compressed source! *)
  | CantAllocateUncompressedDestination
                                 (* Error: Unable to allocate enough memory for uncompressed destination! *)
  | CannotDecompress             (* Error: Cannot decompress! *)
  | NoMessage                    (* nothing printed: the size of the file, an int, is -1 *)
  | SourceReleased               (* DecompressIdatChuncks: realloc(compressedSource, 0)
                                    has released the block that is passed to
                                    uncompress and to free afterwards *)
  | ArrayLost                    (* main, after the message of AppendChunk: the loop
                                    that frees the chunks reads through
                                    chunkDynamicArray, which AppendChunk has set to
                                    NULL *)
  | UnassignedFreed (printed : error).
                                 (* main, after the message [printed] of
                                    DecompressIdatChuncks: free is called on
                                    uncompressedDestination, which was never
                                    assigned *)

(** [Ok a] is [return 0] with the out-parameters holding [a]; [Err e] is
    [return -1], or for the last three errors the point where the run
    stops being defined. *)
Inductive result (A : Type) : Type :=
  | Ok (a : A)
  | Err (e : error).
Arguments Ok {A} a.
Arguments Err {A} e.

Definition bind {A B : Type} (r : result A) (k : A -> result B) : result B :=
  match r with
  | Ok a => k a
  | Err e => Err e
  end.

Notation "'do' x <- r ; k" := (bind r (fun x => k))
  (at level 10, x pattern, r at level 100, k at level 200).

Definition guard (failed : bool) (e : error) : result unit :=
  if failed then Err e else Ok tt.

(** ** Data *)

(** [typedef struct Chunk]: [type] is the array of [CHUNK_TYPE_LENGTH + 1]
    characters, [data] the block of [dataLength] bytes that [data] points to. *)
Record Chunk : Type := mkChunk {
  dataLength : Z;
  type : list byte;
  data : list byte
}.

(** [typedef enum ColorType] *)
Definition GRAYSCALE : Z := 0.
Definition TRUECOLOR : Z := 2.
Definition INDEXED_COLOR : Z := 3.
Definition GRAYSCALE_WITH_ALPHA : Z := 4.
Definition TRUECOLOR_WITH_ALPHA : Z := 6.

(** [typedef struct Ihdr]: four [unsigned int]-sized fields (the enum is
    as wide as an [int]) and three [char]s. *)
Record Ihdr : Type := mkIhdr {
  width : Z;
  height : Z;
  bitDepth : Z;
  colorType : Z;
  compressionMethod : byte;
  filterMethod : byte;
  interlaceMethod : byte
}.

(** ** zlib *)

Definition Z_OK : Z := 0.
Definition Z_DATA_ERROR : Z := -3.
Definition Z_BUF_ERROR : Z := -5.

(** The CRC-32 of zlib's [crc32(crc, buf, len)], bit by bit: polynomial
    0xEDB88320, the running value complemented on the way in and out.
    It instantiates the [crc32] parameter when the decoder is run on
    concrete files. *)
Definition crc32_shift (c : Z) : Z :=
  if Z.odd c then Z.lxor (Z.shiftr c 1) 0xEDB88320 else Z.shiftr c 1.

Definition crc32_byte (c : Z) (b : byte) : Z :=
  Nat.iter 8 crc32_shift (Z.lxor c (byte_val b)).

Definition zlib_crc32 (crc : Z) (buf : list byte) : Z :=
  Z.lxor (fold_left crc32_byte buf (Z.lxor crc 0xFFFFFFFF)) 0xFFFFFFFF.

(** Adler-32, the trailer of a zlib stream. *)
Definition adler32 (buf : list byte) : Z :=
  let s := fold_left
             (fun (s : Z * Z) (x : byte) =>
                let a := (fst s + byte_val x) mod 65521 in
                (a, (snd s + a) mod 65521))
             buf (1, 0) in
  snd s * 65536 + fst s.

(** The deflate blocks of a stream that uses stored blocks only: each is
    a header byte (bit 0 final, bits 1-2 the block type 00), LEN and its
    complement NLEN (little-endian, two bytes each) and LEN literal
    bytes.  Returns the literal bytes and what follows the final block. *)
Fixpoint inflate_stored (fuel : nat) (src : list byte) : option (list byte * list byte) :=
  match fuel with
  | O => None
  | S fuel' =>
      match src with
      | hdr :: l0 :: l1 :: n0 :: n1 :: rest =>
          let len := byte_val l0 + 256 * byte_val l1 in
          let nlen := byte_val n0 + 256 * byte_val n1 in
          if (Z.land (byte_val hdr) 6 =? 0) && (len + nlen =? 65535)
             && (len <=? Z.of_nat (length rest))
          then
            let block := firstn (Z.to_nat len) rest in
            let rest' := skipn (Z.to_nat len) rest in
            if Z.odd (byte_val hdr) then Some (block, rest')
            else
              match inflate_stored fuel' rest' with
              | Some (out, trailer) => Some (block ++ out, trailer)
              | None => None
              end
          else None
      | _ => None
      end
  end.

(** An instance of the [uncompress] parameter for the examples:
    [uncompress(dest, &destLen, source, sourceLen)] on zlib streams
    (RFC 1950) whose deflate blocks are all stored blocks.  The result is
    the return code and the bytes written to [dest]; anything else,
    the empty input included, is reported as [Z_DATA_ERROR]. *)
Definition stored_uncompress (destLen : Z) (source : list byte) : Z * list byte :=
  match source with
  | cmf :: flg :: body =>
      if (byte_val cmf mod 16 =? 8)
         && ((byte_val cmf * 256 + byte_val flg) mod 31 =? 0)
         && negb (Z.testbit (byte_val flg) 5)
      then
        match inflate_stored (length body) body with
        | Some (out, trailer) =>
            if negb ((Z.of_nat (length trailer) =? 4) && (be32 trailer =? adler32 out))
            then (Z_DATA_ERROR, [])
            else if destLen <? Z.of_nat (length out) then (Z_BUF_ERROR, [])
            else (Z_OK, out)
        | None => (Z_DATA_ERROR, [])
        end
      else (Z_DATA_ERROR, [])
  | _ => (Z_DATA_ERROR, [])
  end.

(** ** The decoder *)

Section Decoder.

(** The platform: whether the first byte of an [unsigned int] is its
    least significant one, the largest [unsigned long], the size of a
    [Chunk], whether the allocator serves a request of a given size
    (for a negative [int] passed as the size: the request it converts
    to), whether it serves one more request of a given size while the
    block of [compressedSource] is in use, the contents of a block it has
    just returned, and zlib. *)
Variable host_le : bool.
Variable ULONG_MAX : Z.
Variable sizeof_Chunk : Z.
Variable malloc_ok : Z -> bool.
Variable malloc_again_ok : Z -> bool.
Variable fresh : memory.
Variable crc32 : Z -> list byte -> Z.
Variable uncompress : Z -> list byte -> Z * list byte.

Definition ulong (z : Z) : Z := z mod (ULONG_MAX + 1).

(** The [int] with the bits of an [unsigned int]. *)
Definition int_of_u32 (z : Z) : Z :=
  if z <? 2 ^ 31 then z else z - UINT_MOD.

(** [memcpy(&x, p, 4)] into an [unsigned int x]. *)
Definition load_uint (bs : list byte) : Z :=
  if host_le then le32 bs else be32 bs.

(** [memcpy(&x, p, 1)] into a four-byte [x] that held [old]: the byte
    at the lowest address is replaced, the other three are kept. *)
Definition store_first_byte (old : Z) (b : byte) : Z :=
  if host_le
  then old - old mod 2 ^ 8 + byte_val b
  else byte_val b * 2 ^ 24 + old mod 2 ^ 24.

(** The [n] bytes at [block + off] of a block given by its contents. *)
Definition slice (block : list byte) (off n : Z) : list byte :=
  firstn (Z.to_nat n) (skipn (Z.to_nat off) block).

(** [int GetFileSize(FILE* file)]: [None] is a file that [fopen_s]
    cannot open; on an open file [fseek] and [ftell] succeed and [ftell]
    gives the length of the file.  [const int fileSize = ftell(file)]
    keeps the low 32 bits of that [long]: a length of 2^31 or more does
    not come back as it is. *)
Definition GetFileSize (file : option (list byte)) : Z :=
  match file with
  | None => -1
  | Some bytes => int_of_u32 (u32 (Z.of_nat (length bytes)))
  end.

(** What [fread_s(buffer, fileSize, 1, fileSize, file)] reads: [fileSize]
    bytes of the file, or the file if it is shorter.  A negative
    [fileSize] is converted to a [size_t] count, which is larger than the
    file. *)
Definition fread_s (bytes : list byte) (fileSize : Z) : list byte :=
  if fileSize <? 0 then bytes else firstn (Z.to_nat fileSize) bytes.

(** [int FillBuffer(FILE* file, unsigned char* buffer, const int fileSize,
    unsigned int* cursor)]: [buffer] is the block that [main] allocated
    with [malloc(fileSize)], followed in memory by [beyond].  On success
    the filled buffer and [*cursor]. *)
Definition FillBuffer (file : option (list byte)) (beyond : memory) (fileSize : Z)
  : result (memory * Z) :=
  match file with
  | None => Err CantOpenFile
  | Some bytes =>
      let read := fread_s bytes fileSize in
      if Z.of_nat (length read) <=? 0 then Err ReadingWentWrong
      else
        let buffer := buffer_memory read beyond in
        if negb (memcmp pngSignature (memcpy_from buffer 0 PNG_SIGNATURE_LENGTH) =? 0)
        then Err InvalidPngSignature
        else Ok (buffer, PNG_SIGNATURE_LENGTH)
  end.

(** [bool IsLittleEndian()] *)
Definition IsLittleEndian : bool := host_le.

(** [int ReadChunk(const unsigned char* buffer, unsigned int* cursor,
    Chunk* chunk, const bool isLittleEndian)]: the return value with the
    chunk, and [*cursor] on return. *)
Definition ReadChunk (buffer : memory) (cursor : Z) (isLittleEndian : bool)
  : result Chunk * Z :=
  let dataLength := load_uint (memcpy_from buffer cursor CHUNK_DATA_LENGTH) in
  let dataLength := if isLittleEndian then ToLittleEndian dataLength else dataLength in
  let cursor := u32 (cursor + CHUNK_DATA_LENGTH) in
  let type := memcpy_from buffer cursor CHUNK_TYPE_LENGTH ++ [x00] in
  let cursor := u32 (cursor + CHUNK_TYPE_LENGTH) in
  if negb (malloc_ok dataLength) then (Err CantAllocateChunkData, cursor)
  else
    let data := memcpy_from buffer cursor dataLength in
    let cursor := u32 (cursor + dataLength) in
    let crc := load_uint (memcpy_from buffer cursor CHUNK_CRC_LENGTH) in
    let crc := if isLittleEndian then ToLittleEndian crc else crc in
    let cursor := u32 (cursor + CHUNK_CRC_LENGTH) in
    let checksum := u32 (crc32 0 []) in
    let checksum := u32 (crc32 checksum (firstn (Z.to_nat CHUNK_TYPE_LENGTH) type)) in
    let checksum := u32 (crc32 checksum data) in
    if negb (crc =? checksum) then (Err (ChecksumFailed crc checksum), cursor)
    else (Ok (mkChunk dataLength type data), cursor).

(** [int AppendChunk(Chunk** chunkDynamicArray, const unsigned int
    arraySize, const Chunk* chunk)]: the array is resized to [arraySize]
    elements and the chunk stored in the last one. *)
Definition AppendChunk (chunkDynamicArray : list Chunk) (arraySize : Z) (chunk : Chunk)
  : result (list Chunk) :=
  if negb (malloc_ok (arraySize * sizeof_Chunk)) then Err CantReallocateChunkArray
  else Ok (firstn (Z.to_nat (arraySize - 1)) chunkDynamicArray ++ [chunk]).

Definition bitDepth_invalid (d : Z) : bool :=
  negb (d =? 1) && negb (d =? 2) && negb (d =? 4) && negb (d =? 8) && negb (d =? 16).

Definition colorType_invalid (c : Z) : bool :=
  negb (c =? GRAYSCALE) && negb (c =? TRUECOLOR) && negb (c =? INDEXED_COLOR)
  && negb (c =? GRAYSCALE_WITH_ALPHA) && negb (c =? TRUECOLOR_WITH_ALPHA).

(** The [switch ((int)ihdr->colorType)]: [true] when a case returns -1. *)
Definition pair_invalid (c d : Z) : bool :=
  if c =? TRUECOLOR then negb (d =? 8) && negb (d =? 16)
  else if c =? INDEXED_COLOR
  then negb (d =? 1) && negb (d =? 2) && negb (d =? 4) && negb (d =? 8)
  else if c =? GRAYSCALE_WITH_ALPHA then negb (d =? 8) && negb (d =? 16)
  else if c =? TRUECOLOR_WITH_ALPHA then negb (d =? 8) && negb (d =? 16)
  else false.

(** [int GetIhdrChunkData(const Chunk* ihdrChunk, Ihdr* ihdr, const bool
    isLittleEndian)]: [ihdr] is what the caller's structure holds on
    entry; on success, what it holds on return. *)
Definition GetIhdrChunkData (ihdrChunk : Chunk) (ihdr : Ihdr) (isLittleEndian : bool)
  : result Ihdr :=
  do _ <- guard (dataLength ihdrChunk <? IHDR_LENGTH) IhdrTooShort;
  let index := 0 in
  let width := load_uint (slice (data ihdrChunk) index IHDR_WIDTH_BYTES) in
  do _ <- guard (width <=? 0) IhdrWidthZero;
  let index := index + IHDR_WIDTH_BYTES in
  let height := load_uint (slice (data ihdrChunk) index IHDR_HEIGHT_BYTES) in
  do _ <- guard (height <=? 0) IhdrHeightZero;
  let index := index + IHDR_HEIGHT_BYTES in
  let width := if isLittleEndian then ToLittleEndian width else width in
  let height := if isLittleEndian then ToLittleEndian height else height in
  let bitDepth :=
    store_first_byte (bitDepth ihdr) (nth (Z.to_nat index) (data ihdrChunk) x00) in
  do _ <- guard (bitDepth_invalid bitDepth) IhdrInvalidBitDepth;
  let index := index + IHDR_OTHER_BYTES in
  let colorType :=
    store_first_byte (colorType ihdr) (nth (Z.to_nat index) (data ihdrChunk) x00) in
  do _ <- guard (colorType_invalid colorType) IhdrInvalidColorType;
  do _ <- guard (pair_invalid colorType bitDepth) IhdrInvalidPair;
  let index := index + IHDR_OTHER_BYTES in
  let compressionMethod := nth (Z.to_nat index) (data ihdrChunk) x00 in
  do _ <- guard (negb (byte_val compressionMethod =? 0)) IhdrCompressionMethod;
  let index := index + IHDR_OTHER_BYTES in
  let filterMethod := nth (Z.to_nat index) (data ihdrChunk) x00 in
  do _ <- guard (negb (byte_val filterMethod =? 0)) IhdrFilterMethod;
  let index := index + IHDR_OTHER_BYTES in
  let interlaceMethod := nth (Z.to_nat index) (data ihdrChunk) x00 in
  do _ <- guard (negb (byte_val interlaceMethod =? 0)
                 && negb (byte_val interlaceMethod =? 1)) IhdrInterlaceMethod;
  Ok (mkIhdr width height bitDepth colorType
             compressionMethod filterMethod interlaceMethod).

(** The [for] loop of [DecompressIdatChuncks] over the remaining
    elements of the array: the block at [compressedSource],
    [compressedSourceIndex] and [compressedSize] when it ends. *)
Fixpoint idat_loop (chunks : list Chunk) (compressedSource : memory)
         (compressedSourceIndex compressedSize : Z) : memory * Z * Z :=
  match chunks with
  | [] => (compressedSource, compressedSourceIndex, compressedSize)
  | chunk :: rest =>
      if strcmp (type chunk) DATA_CHUNK_TYPE =? 0
      then idat_loop rest
             (memcpy_to compressedSource compressedSourceIndex
                        (firstn (Z.to_nat (dataLength chunk)) (data chunk)))
             (u32 (compressedSourceIndex + 1))
             (ulong (compressedSize + dataLength chunk))
      else idat_loop rest compressedSource compressedSourceIndex compressedSize
  end.

(** What [DecompressIdatChuncks] passes to [uncompress] as [source] and
    [sourceLen]: the first [compressedSize] bytes at
    [compressedSource] after the loop (for a [compressedSize] that is not
    0, the [realloc] whose result is dropped shrinks the block in
    place). *)
Definition compressed_input (chunkDynamicArray : list Chunk) (chunkArraySize : Z)
  : list byte :=
  let '(compressedSource, _, compressedSize) :=
    idat_loop (firstn (Z.to_nat chunkArraySize) chunkDynamicArray) fresh 0 0 in
  memcpy_from compressedSource 0 compressedSize.

(** [compressedSize] after the loop. *)
Definition compressed_size (chunkDynamicArray : list Chunk) (chunkArraySize : Z) : Z :=
  snd (idat_loop (firstn (Z.to_nat chunkArraySize) chunkDynamicArray) fresh 0 0).

(** [int DecompressIdatChuncks(Chunk* chunkDynamicArray, const unsigned
    int chunkArraySize, unsigned char* uncompressedDestination, unsigned
    long* uncompressedSize)].  [uncompressedDestination] is the
    function's own copy of the caller's pointer, given by the memory it
    points to.  On success: [*uncompressedSize], and the block that the
    function's copy of the pointer refers to on return.

    [realloc(compressedSource, compressedSize)] with a [compressedSize]
    of 0 releases the block (as glibc and the Microsoft runtime do; the
    call is undefined in C23), and [compressedSource] keeps pointing to
    it: every path from there passes it to [uncompress] or to [free], so
    the run is undefined from that call on. *)
Definition DecompressIdatChuncks (chunkDynamicArray : list Chunk) (chunkArraySize : Z)
           (uncompressedDestination : memory) (uncompressedSize : Z)
  : result (Z * memory) :=
  do _ <- guard (negb (malloc_ok ULONG_MAX)) CantAllocateCompressedSource;
  let compressedSource := compressed_input chunkDynamicArray chunkArraySize in
  let compressedSize := compressed_size chunkDynamicArray chunkArraySize in
  do _ <- guard (compressedSize =? 0) SourceReleased;
  do _ <- guard (negb (malloc_again_ok ULONG_MAX)) CantAllocateUncompressedDestination;
  let uncompressedDestination := fresh in
  let '(result, written) := uncompress uncompressedSize compressedSource in
  do _ <- guard (negb (result =? Z_OK)) CannotDecompress;
  Ok (Z.of_nat (length written), memcpy_to uncompressedDestination 0 written).

(** The [for (;;)] of [main], [fuel] iterations of it at most: the
    array, its size and the cursor at the [break].  When [AppendChunk]
    fails it has stored NULL in [chunkDynamicArray], and the loop that
    frees the [chunkArraySize - 1] chunks read before reads through
    it. *)
Fixpoint main_loop (fuel : nat) (buffer : memory) (cursor : Z)
         (chunkDynamicArray : list Chunk) (chunkArraySize : Z) (isLittleEndian : bool)
  : option (result (list Chunk * Z * Z)) :=
  match fuel with
  | O => None
  | S fuel' =>
      match ReadChunk buffer cursor isLittleEndian with
      | (Err e, _) => Some (Err e)
      | (Ok chunk, cursor') =>
          let chunkArraySize' := u32 (chunkArraySize + 1) in
          match AppendChunk chunkDynamicArray chunkArraySize' chunk with
          | Err e => Some (Err (if chunkArraySize' =? 1 then e else ArrayLost))
          | Ok chunkDynamicArray' =>
              if strcmp (type chunk) LAST_CHUNK_TYPE_SIGNATURE =? 0
              then Some (Ok (chunkDynamicArray', chunkArraySize', cursor'))
              else main_loop fuel' buffer cursor' chunkDynamicArray' chunkArraySize'
                             isLittleEndian
          end
      end
  end.

(** [main] up to the end of its [for (;;)]: the file is sized, read and
    walked chunk by chunk. *)
Definition main_read_chunks (fuel : nat) (file : option (list byte)) (beyond : memory)
  : option (result (list Chunk * Z * Z)) :=
  let isLittleEndian := IsLittleEndian in
  let fileSize := GetFileSize file in
  if fileSize =? -1
  then Some (Err (match file with None => CantOpenFile | Some _ => NoMessage end))
  else if negb (malloc_ok fileSize) then Some (Err CantAllocateBuffer)
  else
    match FillBuffer file beyond fileSize with
    | Err e => Some (Err e)
    | Ok (buffer, cursor) => main_loop fuel buffer cursor [] 0 isLittleEndian
    end.

(** The last loop of [main]: the bytes it prints, reading through
    [uncompressedDestination] at [i], [i + width * 4], ... *)
Fixpoint print_loop (fuel : nat) (uncompressedDestination : memory)
         (uncompressedSize width i : Z) : option (list byte) :=
  match fuel with
  | O => None
  | S fuel' =>
      if ulong i <? uncompressedSize
      then
        match print_loop fuel' uncompressedDestination uncompressedSize width
                         (int_of_u32 (u32 (i + u32 (width * 4)))) with
        | Some printed => Some (uncompressedDestination i :: printed)
        | None => None
        end
      else Some []
  end.

(** [int main(...)].  [ihdr] and [uncompressedDestination] are the two
    locals that [main] declares without initialising them: what the
    structure holds, and the memory the pointer refers to, when they
    come into scope.  [None]: a loop ran for more than [fuel] rounds;
    [Some (Ok printed)]: [return 0] after printing [printed].  When
    [DecompressIdatChuncks] has failed with a message, [main] calls
    [free] on its [uncompressedDestination] before it would return -1. *)
Definition main (fuel : nat) (file : option (list byte)) (beyond : memory)
           (ihdr : Ihdr) (uncompressedDestination : memory)
  : option (result (list byte)) :=
  let isLittleEndian := IsLittleEndian in
  match main_read_chunks fuel file beyond with
  | None => None
  | Some (Err e) => Some (Err e)
  | Some (Ok (chunkDynamicArray, chunkArraySize, _)) =>
      match GetIhdrChunkData (hd (mkChunk 0 [] []) chunkDynamicArray) ihdr
                             isLittleEndian with
      | Err e => Some (Err e)
      | Ok ihdr =>
          let uncompressedSize := ULONG_MAX in
          match DecompressIdatChuncks chunkDynamicArray chunkArraySize
                                      uncompressedDestination uncompressedSize with
          | Err SourceReleased => Some (Err SourceReleased)
          | Err e => Some (Err (UnassignedFreed e))
          | Ok (uncompressedSize, _) =>
              option_map Ok
                (print_loop fuel uncompressedDestination uncompressedSize
                            (width ihdr) 0)
          end
      end
  end.

End Decoder.

(** ** The wire format *)

(** The checksum of a chunk: the CRC of [type || payload], obtained by
    driving zlib from the seed [crc32(0L, Z_NULL, 0)] through the type
    bytes and then the payload, each running value held in an
    [unsigned int]. *)
Definition chunk_crc (crc32 : Z -> list byte -> Z) (tag payload : list byte) : Z :=
  u32 (crc32 (u32 (crc32 (u32 (crc32 0 [])) tag)) payload).

(** A chunk record as the PNG stream lays it out:
    [length:u32(big-endian) | type:4 bytes | payload | checksum:u32(big-endian)],
    with [stored] in the checksum field. *)
Definition chunk_record (tag payload : list byte) (stored : Z) : list byte :=
  be32_bytes (Z.of_nat (length payload)) ++ tag ++ payload ++ be32_bytes stored.

(** The record of a chunk whose checksum field is right. *)
Definition encode_chunk (crc32 : Z -> list byte -> Z) (tag payload : list byte)
  : list byte :=
  chunk_record tag payload (chunk_crc crc32 tag payload).

Definition IEND_tag : list byte := [x49; x45; x4e; x44].
Definition IDAT_tag : list byte := [x49; x44; x41; x54].
Definition IHDR_tag : list byte := [x49; x48; x44; x52].

(** The record that starts at offset [cursor] of a memory, field by
    field; offsets are counted modulo 2^32, as an [unsigned int] cursor
    counts them. *)
Definition wire_length (m : memory) (cursor : Z) : Z :=
  be32 (memcpy_from m cursor 4).

Definition wire_type (m : memory) (cursor : Z) : list byte :=
  memcpy_from m (u32 (cursor + 4)) 4.

Definition wire_payload (m : memory) (cursor : Z) : list byte :=
  memcpy_from m (u32 (cursor + 8)) (wire_length m cursor).

Definition wire_crc (m : memory) (cursor : Z) : Z :=
  be32 (memcpy_from m (u32 (cursor + 8 + wire_length m cursor)) 4).

Definition wire_next (m : memory) (cursor : Z) : Z :=
  u32 (cursor + 12 + wire_length m cursor).

(** The [Chunk] that a record with this type and payload is read into. *)
Definition chunk_of (tag payload : list byte) : Chunk :=
  mkChunk (Z.of_nat (length payload)) (tag ++ [x00]) payload.

(** A sequence of chunks, each given by its type and payload, on the wire
    and as the array of [Chunk]s it is read into. *)
Definition encode_chunks (crc32 : Z -> list byte -> Z) (cs : list (list byte * list byte))
  : list byte :=
  flat_map (fun c => encode_chunk crc32 (fst c) (snd c)) cs.

Definition chunks_of (cs : list (list byte * list byte)) : list Chunk :=
  map (fun c => chunk_of (fst c) (snd c)) cs.

(** A chunk whose type array, five characters long as declared, is not
    the literal IDAT. *)
Definition not_image_data (c : Chunk) : Prop :=
  length (type c) = 5%nat /\ type c <> DATA_CHUNK_TYPE.

(** The table of the PNG format: grayscale admits the five bit depths,
    truecolor, grayscale with alpha and truecolor with alpha admit 8 and
    16, indexed colour admits 1, 2, 4 and 8. *)
Definition legal_pair (bitDepth colorType : Z) : bool :=
  if colorType =? 0
  then (bitDepth =? 1) || (bitDepth =? 2) || (bitDepth =? 4) || (bitDepth =? 8)
       || (bitDepth =? 16)
  else if (colorType =? 2) || (colorType =? 4) || (colorType =? 6)
  then (bitDepth =? 8) || (bitDepth =? 16)
  else if colorType =? 3
  then (bitDepth =? 1) || (bitDepth =? 2) || (bitDepth =? 4) || (bitDepth =? 8)
  else false.

(** [z] fits an [unsigned int]. *)
Definition fits32 (z : Z) : Prop := 0 <= z < 2 ^ 32.

(** ** Example inputs *)

(** A memory of zero bytes, a memory of 0xCC bytes (the pattern that a
    debug build leaves in locals and fresh heap blocks), and an allocator
    that serves every request. *)
Definition zeroes : memory := fun _ => x00.
Definition stale : memory := fun _ => xcc.
Definition serves_all : Z -> bool := fun _ => true.

(** [ULONG_MAX] and [sizeof(Chunk)] where [unsigned long] and pointers are
    32 bits wide. *)
Definition ULONG_MAX_32 : Z := 2 ^ 32 - 1.
Definition sizeof_Chunk_32 : Z := 16.

(** The 13 bytes of a header for a 1 x 1 image with no interlacing. *)
Definition ihdr_payload (bitDepth colorType : Z) : list byte :=
  be32_bytes 1 ++ be32_bytes 1 ++ map mk_byte [bitDepth; colorType; 0; 0; 0].

(** One scanline of a 1 x 1 truecolor image: the filter byte and three
    colour bytes; and a zlib stream that carries [raw] in one stored
    block. *)
Definition scanline : list byte := map mk_byte [0; 255; 128; 64].

Definition zlib_stored (raw : list byte) : list byte :=
  let len := Z.of_nat (length raw) in
  map mk_byte [120; 1; 1; len; len / 256; 65535 - len; (65535 - len) / 256]
  ++ raw ++ be32_bytes (adler32 raw).

Definition tiny_png : list byte :=
  pngSignature
  ++ encode_chunks zlib_crc32
       [(IHDR_tag, ihdr_payload 8 TRUECOLOR); (IDAT_tag, zlib_stored scanline)]
  ++ encode_chunk zlib_crc32 IEND_tag [].

(** [tiny_png] with the bit depth in the header payload changed from 8 to
    16 and the stored checksum left as it was. *)
Definition tampered_png : list byte :=
  pngSignature
  ++ chunk_record IHDR_tag (ihdr_payload 16 TRUECOLOR)
                  (chunk_crc zlib_crc32 IHDR_tag (ihdr_payload 8 TRUECOLOR))
  ++ encode_chunk zlib_crc32 IDAT_tag (zlib_stored scanline)
  ++ encode_chunk zlib_crc32 IEND_tag [].

(** A file whose second chunk, after a sound header chunk, carries a
    payload that does not match its checksum. *)
Definition tampered_idat_png : list byte :=
  pngSignature
  ++ encode_chunks zlib_crc32 [(IHDR_tag, ihdr_payload 8 TRUECOLOR)]
  ++ chunk_record IDAT_tag (map mk_byte [1; 2; 3]) (chunk_crc zlib_crc32 IDAT_tag [])
  ++ encode_chunk zlib_crc32 IEND_tag [].

(** A file that ends right after the signature, and a memory that holds
    an [IEND] record where the bytes of such a file's first chunk would
    be. *)
Definition signature_only : list byte := pngSignature.

Definition IEND_after_signature : memory :=
  buffer_memory (pngSignature ++ encode_chunk zlib_crc32 IEND_tag []) zeroes.

(** An [Ihdr] whose fields are all zero, and one whose four-byte fields
    hold 0xCCCCCCCC. *)
Definition ihdr_zeroed : Ihdr := mkIhdr 0 0 0 0 x00 x00 x00.
Definition ihdr_stale : Ihdr := mkIhdr 0 0 0xCCCCCCCC 0xCCCCCCCC x00 x00 x00.

(** Two image-data chunks with payloads 1 2 3 and 4 5, and a sequence
    without any. *)
Definition two_idat : list Chunk :=
  [chunk_of IDAT_tag (map mk_byte [1; 2; 3]); chunk_of IDAT_tag (map mk_byte [4; 5])].

Definition no_idat : list Chunk :=
  [chunk_of IHDR_tag (ihdr_payload 8 TRUECOLOR); chunk_of IEND_tag []].

(** ** Notions for the further properties *)

(** What every [Chunk] filled in by [ReadChunk] satisfies: the type array
    has its five characters, the last of them NUL, and [data] holds
    [dataLength] bytes. *)
Definition well_formed_chunk (c : Chunk) : Prop :=
  length (type c) = 5%nat
  /\ nth 4 (type c) x00 = x00
  /\ Z.of_nat (length (data c)) = dataLength c.

(** The total of the [dataLength]s of the chunks whose type is IDAT. *)
Fixpoint idat_total (chunks : list Chunk) : Z :=
  match chunks with
  | [] => 0
  | c :: rest =>
      if list_eq_dec Byte.byte_eq_dec (type c) DATA_CHUNK_TYPE
      then dataLength c + idat_total rest
      else idat_total rest
  end.

(** The [n] offsets [i], [i + stride], [i + 2 * stride], ... *)
Definition strided (i stride : Z) (n : nat) : list Z :=
  map (fun k => i + Z.of_nat k * stride) (seq 0 n).

(** A decompressor that gives the return code and the output length of
    [stored_uncompress] and zero bytes for output. *)
Definition blanking_uncompress (destLen : Z) (source : list byte) : Z * list byte :=
  let '(code, written) := stored_uncompress destLen source in
  (code, map (fun _ => x00) written).

(** A file of three bytes, the first three of the signature. *)
Definition three_bytes : list byte := firstn 3 pngSignature.

(** An allocator that refuses requests of 2^31 bytes and more. *)
Definition refuses_large : Z -> bool := fun n => n <? 2 ^ 31.

(** The type of a text chunk. *)
Definition tEXt_tag : list byte := [x74; x45; x58; x74].

(** [tiny_png] with the type of its first chunk given. *)
Definition tiny_png_headed (tag : list byte) : list byte :=
  pngSignature
  ++ encode_chunks zlib_crc32
       [(tag, ihdr_payload 8 TRUECOLOR); (IDAT_tag, zlib_stored scanline)]
  ++ encode_chunk zlib_crc32 IEND_tag [] ++ [].

(** * Properties *)

(** ** Bytes and machine words *)

Lemma byte_val_range (b : byte) : 0 <= byte_val b < 256.
Proof.
  unfold byte_val. pose proof (Byte.to_N_bounded b) as H. lia.
Qed.

Lemma mk_byte_val (b : byte) : mk_byte (byte_val b) = b.
Proof.
  unfold mk_byte. rewrite Z.mod_small by apply byte_val_range.
  unfold byte_val. rewrite N2Z.id, Byte.of_to_N. reflexivity.
Qed.

Lemma byte_val_mk (z : Z) : byte_val (mk_byte z) = z mod 256.
Proof.
  unfold mk_byte, byte_val.
  assert (Hr : 0 <= z mod 256 < 256) by (apply Z.mod_pos_bound; lia).
  destruct (Byte.of_N (Z.to_N (z mod 256))) as [b|] eqn:E.
  - apply Byte.to_of_N in E. rewrite E. lia.
  - apply Byte.of_N_None_iff in E. lia.
Qed.

Lemma byte_eqb_eq (a b : byte) : Byte.eqb a b = true <-> a = b.
Proof. split; [apply Byte.byte_dec_bl | apply Byte.byte_dec_lb]. Qed.

Lemma u32_small (z : Z) : 0 <= z < 2 ^ 32 -> u32 z = z.
Proof. intros H. unfold u32, UINT_MOD. apply Z.mod_small. exact H. Qed.

Lemma u32_range (z : Z) : 0 <= u32 z < 2 ^ 32.
Proof. unfold u32, UINT_MOD. apply Z.mod_pos_bound. lia. Qed.

Lemma be32_range (bs : list byte) : 0 <= be32 bs < 2 ^ 32.
Proof.
  unfold be32.
  destruct bs as [|b0 [|b1 [|b2 [|b3 [|? ?]]]]]; try lia.
  pose proof (byte_val_range b0). pose proof (byte_val_range b1).
  pose proof (byte_val_range b2). pose proof (byte_val_range b3). lia.
Qed.

Lemma be32_of_bytes (v : Z) : 0 <= v < 2 ^ 32 -> be32 (be32_bytes v) = v.
Proof.
  intros Hv. unfold be32, be32_bytes. rewrite !byte_val_mk.
  change (2 ^ 24) with (2 ^ 8 * 2 ^ 8 * 2 ^ 8).
  change (2 ^ 16) with (2 ^ 8 * 2 ^ 8).
  rewrite <- !Z.div_div by lia.
  change (2 ^ 8) with 256.
  pose proof (Z.div_mod v 256 ltac:(lia)) as H0.
  pose proof (Z.div_mod (v / 256) 256 ltac:(lia)) as H1.
  pose proof (Z.div_mod (v / 256 / 256) 256 ltac:(lia)) as H2.
  assert (H3 : (v / 256 / 256 / 256) mod 256 = v / 256 / 256 / 256).
  { apply Z.mod_small. split.
    - repeat apply Z.div_pos; lia.
    - repeat (apply Z.div_lt_upper_bound; [lia|]). lia. }
  pose proof (Z.mod_pos_bound v 256 ltac:(lia)).
  pose proof (Z.mod_pos_bound (v / 256) 256 ltac:(lia)).
  pose proof (Z.mod_pos_bound (v / 256 / 256) 256 ltac:(lia)).
  lia.
Qed.

Lemma length_be32_bytes (v : Z) : length (be32_bytes v) = 4%nat.
Proof. reflexivity. Qed.

(** ** Byte swapping *)

Lemma testbit_below (lo k n : Z) : 0 <= lo < 2 ^ k -> 0 <= k <= n -> Z.testbit lo n = false.
Proof.
  intros Hlo Hk. rewrite <- (Z.mod_small lo (2 ^ k)) by exact Hlo.
  apply Z.mod_pow2_bits_high. exact Hk.
Qed.

Lemma lor_high_low (hi lo k : Z) :
  0 <= k -> 0 <= lo < 2 ^ k -> Z.lor (hi * 2 ^ k) lo = hi * 2 ^ k + lo.
Proof.
  intros Hk Hlo.
  rewrite <- Z.lxor_lor, <- Z.add_nocarry_lxor; trivial.
  all: apply Z.bits_inj'.
  all: intros n Hn;
    rewrite Z.land_spec, Z.bits_0, <- Z.shiftl_mul_pow2 by exact Hk;
    destruct (Z.lt_ge_cases n k) as [Hlt|Hge];
    [ rewrite Z.shiftl_spec_low by exact Hlt; reflexivity
    | rewrite (testbit_below lo k n) by lia; apply andb_false_r ].
Qed.

Lemma land_byte_mask (v k : Z) :
  0 <= k -> Z.land v (Z.shiftl (Z.ones 8) k) = (v / 2 ^ k) mod 2 ^ 8 * 2 ^ k.
Proof.
  intros Hk.
  rewrite <- Z.shiftr_div_pow2, <- Z.land_ones, <- Z.shiftl_mul_pow2 by lia.
  rewrite Z.shiftl_land.
  apply Z.bits_inj'. intros n Hn. rewrite !Z.land_spec.
  destruct (Z.lt_ge_cases n k) as [Hlt|Hge].
  - rewrite !(Z.shiftl_spec_low _ k n) by exact Hlt.
    rewrite !andb_false_r. reflexivity.
  - rewrite (Z.shiftl_spec (Z.shiftr v k)) by exact Hn.
    rewrite Z.shiftr_spec by lia. f_equal. f_equal. lia.
Qed.

Lemma byte_of_sum (lo b hi k v : Z) :
  0 <= k -> 0 <= lo < 2 ^ k -> 0 <= b < 2 ^ 8 ->
  v = lo + b * 2 ^ k + hi * 2 ^ 8 * 2 ^ k ->
  (v / 2 ^ k) mod 2 ^ 8 = b.
Proof.
  intros Hk Hlo Hb ->.
  replace (lo + b * 2 ^ k + hi * 2 ^ 8 * 2 ^ k) with (lo + (b + hi * 2 ^ 8) * 2 ^ k) by ring.
  assert (0 < 2 ^ k) by (apply Z.pow_pos_nonneg; lia).
  rewrite Z.div_add by lia. rewrite Z.div_small by exact Hlo.
  rewrite Z.add_0_l, Z.mod_add by lia. apply Z.mod_small. exact Hb.
Qed.

Lemma ToLittleEndian_le32 (bs : list byte) :
  length bs = 4%nat -> ToLittleEndian (le32 bs) = be32 bs.
Proof.
  intros Hlen.
  destruct bs as [|b0 [|b1 [|b2 [|b3 [|? ?]]]]]; try discriminate.
  pose proof (byte_val_range b0) as R0. pose proof (byte_val_range b1) as R1.
  pose proof (byte_val_range b2) as R2. pose proof (byte_val_range b3) as R3.
  unfold ToLittleEndian, le32, be32.
  set (v := byte_val b0 + byte_val b1 * 2 ^ 8 + byte_val b2 * 2 ^ 16 + byte_val b3 * 2 ^ 24).
  change 0xFF000000 with (Z.shiftl (Z.ones 8) 24).
  change 0x00FF0000 with (Z.shiftl (Z.ones 8) 16).
  change 0x0000FF00 with (Z.shiftl (Z.ones 8) 8).
  change 0x000000FF with (Z.shiftl (Z.ones 8) 0).
  rewrite !land_byte_mask by lia.
  assert (E3 : (v / 2 ^ 24) mod 2 ^ 8 = byte_val b3).
  { apply (byte_of_sum (byte_val b0 + byte_val b1 * 2 ^ 8 + byte_val b2 * 2 ^ 16) _ 0 24);
      unfold v; lia. }
  assert (E2 : (v / 2 ^ 16) mod 2 ^ 8 = byte_val b2).
  { apply (byte_of_sum (byte_val b0 + byte_val b1 * 2 ^ 8) _ (byte_val b3) 16);
      unfold v; lia. }
  assert (E1 : (v / 2 ^ 8) mod 2 ^ 8 = byte_val b1).
  { apply (byte_of_sum (byte_val b0) _ (byte_val b2 + byte_val b3 * 2 ^ 8) 8);
      unfold v; lia. }
  assert (E0 : (v / 2 ^ 0) mod 2 ^ 8 = byte_val b0).
  { apply (byte_of_sum 0 _ (byte_val b1 + byte_val b2 * 2 ^ 8 + byte_val b3 * 2 ^ 16) 0);
      unfold v; lia. }
  rewrite E3, E2, E1, E0. clearbody v.
  rewrite !Z.shiftr_div_pow2, !Z.shiftl_mul_pow2 by lia.
  rewrite Z.div_mul by lia.
  replace (byte_val b2 * 2 ^ 16) with (byte_val b2 * 2 ^ 8 * 2 ^ 8) by lia.
  rewrite Z.div_mul by lia.
  rewrite !u32_small by lia.
  replace (byte_val b1 * 2 ^ 8 * 2 ^ 8) with (byte_val b1 * 2 ^ 16) by lia.
  replace (byte_val b0 * 2 ^ 0 * 2 ^ 24) with (byte_val b0 * 2 ^ 24) by lia.
  rewrite (Z.lor_comm (byte_val b3)), lor_high_low by lia.
  rewrite (Z.lor_comm _ (byte_val b1 * 2 ^ 16)), lor_high_low by lia.
  rewrite (Z.lor_comm _ (byte_val b0 * 2 ^ 24)), lor_high_low by lia.
  lia.
Qed.

(** ** zlib's CRC-32 *)

Lemma log2_fits32 (a : Z) : fits32 a -> Z.log2 a < 32.
Proof.
  intros [Ha Hb]. destruct (Z.eq_dec a 0) as [->|Hne]; [reflexivity|].
  apply Z.log2_lt_pow2; lia.
Qed.

Lemma lxor_fits32 (a b : Z) : fits32 a -> fits32 b -> fits32 (Z.lxor a b).
Proof.
  intros Ha Hb.
  assert (Hn : 0 <= Z.lxor a b) by (apply Z.lxor_nonneg; unfold fits32 in *; lia).
  split; [exact Hn|].
  destruct (Z.eq_dec (Z.lxor a b) 0) as [->|Hne]; [reflexivity|].
  apply Z.log2_lt_pow2; [lia|].
  pose proof (Z.log2_lxor a b (proj1 Ha) (proj1 Hb)).
  pose proof (log2_fits32 a Ha). pose proof (log2_fits32 b Hb). lia.
Qed.

Lemma crc32_shift_fits32 (c : Z) : fits32 c -> fits32 (crc32_shift c).
Proof.
  intros Hc. unfold crc32_shift.
  assert (Hs : fits32 (Z.shiftr c 1)).
  { unfold fits32 in *. rewrite Z.shiftr_div_pow2 by lia. change (2 ^ 1) with 2.
    Z.div_mod_to_equations. lia. }
  destruct (Z.odd c); [|exact Hs].
  apply lxor_fits32; [exact Hs | unfold fits32; lia].
Qed.

Lemma crc32_byte_fits32 (c : Z) (b : byte) : fits32 c -> fits32 (crc32_byte c b).
Proof.
  intros Hc. unfold crc32_byte. cbn [Nat.iter nat_rect].
  repeat apply crc32_shift_fits32.
  apply lxor_fits32; [exact Hc|].
  pose proof (byte_val_range b). unfold fits32. lia.
Qed.

Lemma crc32_fold_fits32 (buf : list byte) :
  forall c, fits32 c -> fits32 (fold_left crc32_byte buf c).
Proof.
  induction buf as [|b buf IH]; intros c Hc; [exact Hc|].
  cbn [fold_left]. apply IH. apply crc32_byte_fits32. exact Hc.
Qed.

Lemma zlib_crc32_fits32 (crc : Z) (buf : list byte) :
  fits32 crc -> fits32 (zlib_crc32 crc buf).
Proof.
  intros Hc. unfold zlib_crc32.
  assert (HF : fits32 0xFFFFFFFF) by (unfold fits32; lia).
  apply lxor_fits32; [|exact HF].
  apply crc32_fold_fits32. apply lxor_fits32; [exact Hc | exact HF].
Qed.

(** Feeding zlib two runs of bytes one after the other is feeding it
    their concatenation. *)
Lemma zlib_crc32_app (crc : Z) (a b : list byte) :
  zlib_crc32 (zlib_crc32 crc a) b = zlib_crc32 crc (a ++ b).
Proof.
  unfold zlib_crc32. rewrite fold_left_app. f_equal. f_equal.
  rewrite Z.lxor_assoc, Z.lxor_nilpotent, Z.lxor_0_r. reflexivity.
Qed.

(** With zlib's [crc32], the checksum of a chunk is the CRC-32 of
    [type || payload] from the seed 0. *)
Lemma chunk_crc_zlib (tag payload : list byte) :
  chunk_crc zlib_crc32 tag payload = zlib_crc32 0 (tag ++ payload).
Proof.
  unfold chunk_crc.
  assert (H0 : fits32 0) by (unfold fits32; lia).
  change (u32 (zlib_crc32 0 [])) with 0.
  rewrite (u32_small (zlib_crc32 0 tag)) by (apply zlib_crc32_fits32; exact H0).
  rewrite zlib_crc32_app.
  apply u32_small. apply zlib_crc32_fits32. exact H0.
Qed.

(** ** Memory *)

Lemma length_memcpy_from (m : memory) (off n : Z) :
  length (memcpy_from m off n) = Z.to_nat n.
Proof. unfold memcpy_from. rewrite length_map, length_seq. reflexivity. Qed.

Lemma nth_memcpy_from (m : memory) (off n : Z) (i : nat) :
  (i < Z.to_nat n)%nat -> nth i (memcpy_from m off n) x00 = m (off + Z.of_nat i).
Proof.
  intros Hi. unfold memcpy_from.
  rewrite (nth_indep _ x00 (m (off + Z.of_nat 0%nat)))
    by (rewrite length_map, length_seq; exact Hi).
  rewrite (map_nth (fun i => m (off + Z.of_nat i))), seq_nth by exact Hi.
  reflexivity.
Qed.


Lemma buffer_memory_inside (buffer : list byte) (beyond : memory) (i : Z) :
  0 <= i < Z.of_nat (length buffer) ->
  buffer_memory buffer beyond i = nth (Z.to_nat i) buffer x00.
Proof.
  intros Hi. unfold buffer_memory.
  destruct (Z.leb_spec 0 i); [|lia].
  destruct (Z.ltb_spec i (Z.of_nat (length buffer))); [|lia]. reflexivity.
Qed.

Lemma buffer_memory_outside (buffer : list byte) (beyond : memory) (i : Z) :
  Z.of_nat (length buffer) <= i ->
  buffer_memory buffer beyond i = beyond i.
Proof.
  intros Hi. unfold buffer_memory.
  destruct (Z.ltb_spec i (Z.of_nat (length buffer))); [lia|].
  rewrite andb_false_r. reflexivity.
Qed.

(** Reading a buffer where a known run of bytes sits. *)
Lemma memcpy_from_buffer (pre bs post : list byte) (beyond : memory) (off n : Z) :
  off = Z.of_nat (length pre) -> n = Z.of_nat (length bs) ->
  memcpy_from (buffer_memory (pre ++ bs ++ post) beyond) off n = bs.
Proof.
  intros -> ->.
  apply (nth_ext _ _ x00 x00).
  - rewrite length_memcpy_from. lia.
  - intros i Hi. rewrite length_memcpy_from, Nat2Z.id in Hi.
    rewrite nth_memcpy_from by lia.
    rewrite buffer_memory_inside by (rewrite !length_app; lia).
    replace (Z.to_nat (Z.of_nat (length pre) + Z.of_nat i)) with (length pre + i)%nat by lia.
    rewrite app_nth2_plus, app_nth1 by exact Hi. reflexivity.
Qed.

Lemma memcpy_from_buffer_prefix (buffer : list byte) (beyond : memory) (n : Z) :
  0 <= n <= Z.of_nat (length buffer) ->
  memcpy_from (buffer_memory buffer beyond) 0 n = firstn (Z.to_nat n) buffer.
Proof.
  intros Hn.
  rewrite <- (firstn_skipn (Z.to_nat n) buffer) at 1.
  apply (memcpy_from_buffer [] _ _ beyond).
  - reflexivity.
  - rewrite length_firstn. lia.
Qed.


Lemma byte_val_inj (x y : byte) : byte_val x = byte_val y -> x = y.
Proof. intros H. rewrite <- (mk_byte_val x), <- (mk_byte_val y), H. reflexivity. Qed.

Lemma memcmp_zero (a b : list byte) :
  length a = length b -> (memcmp a b = 0 <-> a = b).
Proof.
  revert b. induction a as [|x a IH]; intros [|y b] Hlen; try discriminate.
  - split; reflexivity.
  - injection Hlen as Hlen. cbn [memcmp].
    destruct (Byte.eqb x y) eqn:E.
    + apply byte_eqb_eq in E. subst y. rewrite (IH b Hlen).
      split; [intros ->; reflexivity | intros H; injection H as H; exact H].
    + apply Byte.eqb_false in E. split.
      * intros H. exfalso. apply E. apply byte_val_inj. lia.
      * intros H. injection H as H _. contradiction.
Qed.

(** A buffer extended by the bytes that follow it in memory is the same
    memory. *)
Lemma buffer_memory_extended (buffer : list byte) (beyond : memory) (n i : Z) :
  buffer_memory (buffer ++ memcpy_from beyond (Z.of_nat (length buffer)) n) beyond i
  = buffer_memory buffer beyond i.
Proof.
  unfold buffer_memory. rewrite length_app, length_memcpy_from.
  destruct (Z.leb_spec 0 i) as [Hi|Hi]; [|reflexivity]. cbn [andb].
  destruct (Z.ltb_spec i (Z.of_nat (length buffer))) as [Hin|Hout].
  - destruct (Z.ltb_spec i (Z.of_nat (length buffer + Z.to_nat n))); [|lia].
    apply app_nth1. lia.
  - destruct (Z.ltb_spec i (Z.of_nat (length buffer + Z.to_nat n))) as [Hext|_];
      [|reflexivity].
    rewrite app_nth2 by lia. rewrite nth_memcpy_from by lia. f_equal. lia.
Qed.


Lemma memcpy_from_buffer_at (file pre bs post : list byte) (beyond : memory) (off n : Z) :
  file = pre ++ bs ++ post ->
  off = Z.of_nat (length pre) -> n = Z.of_nat (length bs) ->
  memcpy_from (buffer_memory file beyond) off n = bs.
Proof. intros ->. apply memcpy_from_buffer. Qed.

(** [strcmp] against a literal: equal exactly on the literal itself. *)
Lemma strcmp_zero (b' : list byte) :
  Forall (fun y => y <> x00) b' ->
  forall a, length a = length (b' ++ [x00]) ->
            (strcmp a (b' ++ [x00]) = 0 <-> a = b' ++ [x00]).
Proof.
  induction 1 as [|y b' Hy Hb' IH]; intros [|x a] Hlen; try discriminate.
  - destruct a; [|discriminate]. cbn [strcmp app].
    destruct (Byte.eqb x x00) eqn:E.
    + apply byte_eqb_eq in E. subst x. split; reflexivity.
    + apply Byte.eqb_false in E. split.
      * intros H. exfalso. apply E. apply byte_val_inj. lia.
      * intros H. injection H as H. contradiction.
  - injection Hlen as Hlen. cbn [strcmp app].
    destruct (Byte.eqb x y) eqn:E.
    + apply byte_eqb_eq in E. subst y.
      destruct (Byte.eqb x x00) eqn:E0.
      * apply byte_eqb_eq in E0. contradiction.
      * rewrite (IH a Hlen).
        split; [intros ->; reflexivity | intros H; injection H as H; exact H].
    + apply Byte.eqb_false in E. split.
      * intros H. exfalso. apply E. apply byte_val_inj. lia.
      * intros H. injection H as H _. contradiction.
Qed.

(** Two type arrays compare equal exactly when their four characters
    are the same. *)
Lemma strcmp_terminated (a b : list byte) :
  length a = length b -> Forall (fun y => y <> x00) b ->
  (strcmp (a ++ [x00]) (b ++ [x00]) = 0 <-> a = b).
Proof.
  intros Hlen Hb. rewrite (strcmp_zero b Hb) by (rewrite !length_app, Hlen; reflexivity).
  split; [apply app_inv_tail | intros ->; reflexivity].
Qed.

Lemma tag_has_no_NUL_IEND : Forall (fun y => y <> x00) IEND_tag.
Proof. repeat constructor; discriminate. Qed.

Lemma tag_has_no_NUL_IDAT : Forall (fun y => y <> x00) IDAT_tag.
Proof. repeat constructor; discriminate. Qed.

Lemma chunk_crc_range (crc32 : Z -> list byte -> Z) (tag payload : list byte) :
  0 <= chunk_crc crc32 tag payload < 2 ^ 32.
Proof. unfold chunk_crc. apply u32_range. Qed.

Lemma length_chunk_record (tag payload : list byte) (stored : Z) :
  Z.of_nat (length (chunk_record tag payload stored))
  = 8 + Z.of_nat (length tag) + Z.of_nat (length payload).
Proof. unfold chunk_record. rewrite !length_app, !length_be32_bytes. lia. Qed.

Lemma length_encode_chunk (crc32 : Z -> list byte -> Z) (tag payload : list byte) :
  Z.of_nat (length (encode_chunk crc32 tag payload))
  = 8 + Z.of_nat (length tag) + Z.of_nat (length payload).
Proof. apply length_chunk_record. Qed.

(** The fields of a record that sits in a buffer right after [pre]. *)
Lemma record_fields (pre tag payload rest : list byte) (stored : Z) (beyond : memory) :
  let m := buffer_memory (pre ++ chunk_record tag payload stored ++ rest) beyond in
  let c := Z.of_nat (length pre) in
  length tag = 4%nat -> fits32 stored ->
  Z.of_nat (length (pre ++ chunk_record tag payload stored ++ rest)) < 2 ^ 32 ->
  wire_length m c = Z.of_nat (length payload)
  /\ wire_type m c = tag
  /\ wire_payload m c = payload
  /\ wire_crc m c = stored
  /\ wire_next m c = c + Z.of_nat (length (chunk_record tag payload stored)).
Proof.
  intros m c Htag Hstored Hsize. subst m c.
  rewrite !length_app, !Nat2Z.inj_add, length_chunk_record, Htag in Hsize.
  rewrite length_chunk_record, Htag.
  set (file := pre ++ chunk_record tag payload stored ++ rest).
  assert (Hfile : file = pre ++ be32_bytes (Z.of_nat (length payload)) ++ tag ++ payload
                         ++ be32_bytes stored ++ rest).
  { unfold file, chunk_record. rewrite <- !app_assoc. reflexivity. }
  assert (El : wire_length (buffer_memory file beyond) (Z.of_nat (length pre))
               = Z.of_nat (length payload)).
  { unfold wire_length.
    rewrite (memcpy_from_buffer_at file pre (be32_bytes (Z.of_nat (length payload)))
               (tag ++ payload ++ be32_bytes stored ++ rest)).
    - apply be32_of_bytes. lia.
    - exact Hfile.
    - reflexivity.
    - reflexivity. }
  unfold wire_type, wire_payload, wire_crc, wire_next. rewrite El.
  rewrite !u32_small by lia.
  repeat split.
  - apply (memcpy_from_buffer_at file (pre ++ be32_bytes (Z.of_nat (length payload))) tag
             (payload ++ be32_bytes stored ++ rest)).
    + rewrite Hfile, <- !app_assoc. reflexivity.
    + rewrite length_app, length_be32_bytes. lia.
    + lia.
  - apply (memcpy_from_buffer_at file (pre ++ be32_bytes (Z.of_nat (length payload)) ++ tag)
             payload (be32_bytes stored ++ rest)).
    + rewrite Hfile, <- !app_assoc. reflexivity.
    + rewrite !length_app, length_be32_bytes. lia.
    + reflexivity.
  - rewrite (memcpy_from_buffer_at file
               (pre ++ be32_bytes (Z.of_nat (length payload)) ++ tag ++ payload)
               (be32_bytes stored) rest).
    + apply be32_of_bytes. exact Hstored.
    + rewrite Hfile, <- !app_assoc. reflexivity.
    + rewrite !length_app, length_be32_bytes. lia.
    + reflexivity.
  - lia.
Qed.

(** ** The chunk reader and the walk of the container *)

Section Container.

Variable host_le : bool.
Variable sizeof_Chunk : Z.
Variable malloc_ok : Z -> bool.
Variable crc32 : Z -> list byte -> Z.

Local Abbreviation ReadChunk := (ReadChunk host_le malloc_ok crc32).
Local Abbreviation IsLittleEndian := (IsLittleEndian host_le).
Local Abbreviation main_loop := (main_loop host_le sizeof_Chunk malloc_ok crc32).
Local Abbreviation main_read_chunks :=
  (main_read_chunks host_le sizeof_Chunk malloc_ok crc32).
Local Abbreviation encode_chunk := (encode_chunk crc32).
Local Abbreviation encode_chunks := (encode_chunks crc32).

(** Whatever the byte order of the host, a four-byte field comes out
    as the big-endian number on the wire once the flag that [main]
    computes is applied. *)
Lemma load_uint_normalised (bs : list byte) :
  length bs = 4%nat ->
  (if IsLittleEndian then ToLittleEndian (load_uint host_le bs) else load_uint host_le bs)
  = be32 bs.
Proof.
  intros Hlen. unfold IsLittleEndian, load_uint.
  destruct host_le; [apply ToLittleEndian_le32; exact Hlen | reflexivity].
Qed.

Lemma u32_add_l (a b : Z) : u32 (u32 a + b) = u32 (a + b).
Proof. unfold u32. apply Zplus_mod_idemp_l. Qed.

(** [ReadChunk] in terms of the record at the cursor. *)
Lemma ReadChunk_spec (buffer : memory) (cursor : Z) :
  ReadChunk buffer cursor IsLittleEndian =
  if negb (malloc_ok (wire_length buffer cursor))
  then (Err CantAllocateChunkData, u32 (cursor + 8))
  else
    let checksum := chunk_crc crc32 (wire_type buffer cursor) (wire_payload buffer cursor) in
    if negb (wire_crc buffer cursor =? checksum)
    then (Err (ChecksumFailed (wire_crc buffer cursor) checksum), wire_next buffer cursor)
    else (Ok (mkChunk (wire_length buffer cursor) (wire_type buffer cursor ++ [x00])
                      (wire_payload buffer cursor)),
          wire_next buffer cursor).
Proof.
  unfold ReadChunk.
  unfold CHUNK_DATA_LENGTH, CHUNK_TYPE_LENGTH, CHUNK_CRC_LENGTH.
  rewrite !load_uint_normalised by (rewrite length_memcpy_from; reflexivity).
  fold (wire_length buffer cursor).
  rewrite !u32_add_l.
  replace (cursor + 4 + 4) with (cursor + 8) by ring.
  replace (cursor + 8 + wire_length buffer cursor + 4)
    with (cursor + 12 + wire_length buffer cursor) by ring.
  fold (wire_type buffer cursor). fold (wire_payload buffer cursor).
  fold (wire_crc buffer cursor). fold (wire_next buffer cursor).
  rewrite firstn_app, firstn_all2
    by (unfold wire_type; rewrite length_memcpy_from; apply Nat.le_refl).
  replace (Z.to_nat 4 - length (wire_type buffer cursor))%nat with 0%nat
    by (unfold wire_type; rewrite length_memcpy_from; reflexivity).
  rewrite firstn_O, app_nil_r.
  fold (chunk_crc crc32 (wire_type buffer cursor) (wire_payload buffer cursor)).
  reflexivity.
Qed.


(** C2.  A chunk whose stored checksum differs from the CRC-32 recomputed
    over its type and payload makes [ReadChunk] fail with the
    checksum message, and the walk of [main] returns that failure at
    once, whatever it had collected: no chunk sequence comes back. *)
Theorem checksum_mismatch_aborts (buffer : memory) (cursor : Z) :
  let checksum := chunk_crc crc32 (wire_type buffer cursor) (wire_payload buffer cursor) in
  malloc_ok (wire_length buffer cursor) = true ->
  wire_crc buffer cursor <> checksum ->
  fst (ReadChunk buffer cursor IsLittleEndian)
  = Err (ChecksumFailed (wire_crc buffer cursor) checksum)
  /\ forall fuel chunkDynamicArray chunkArraySize,
       main_loop (S fuel) buffer cursor chunkDynamicArray chunkArraySize IsLittleEndian
       = Some (Err (ChecksumFailed (wire_crc buffer cursor) checksum)).
Proof.
  intros checksum Hmalloc Hcrc.
  assert (HR : ReadChunk buffer cursor IsLittleEndian
               = (Err (ChecksumFailed (wire_crc buffer cursor) checksum),
                  wire_next buffer cursor)).
  { rewrite ReadChunk_spec, Hmalloc. cbn [negb]. fold checksum.
    destruct (Z.eqb_spec (wire_crc buffer cursor) checksum) as [E|_]; [contradiction|].
    reflexivity. }
  split.
  - rewrite HR. reflexivity.
  - intros fuel arr n. cbn [main_loop]. rewrite HR. reflexivity.
Qed.

(** C5.  A record whose length field is 0 and whose checksum is the
    CRC-32 of its type alone is read successfully: the chunk has
    [dataLength] 0 and an empty payload, and the cursor has moved past
    the twelve bytes of the record. *)
Theorem empty_chunk_is_read (buffer : memory) (cursor : Z) :
  wire_length buffer cursor = 0 ->
  wire_crc buffer cursor = chunk_crc crc32 (wire_type buffer cursor) [] ->
  malloc_ok 0 = true ->
  ReadChunk buffer cursor IsLittleEndian
  = (Ok (mkChunk 0 (wire_type buffer cursor ++ [x00]) []), u32 (cursor + 12)).
Proof.
  intros Hlen Hcrc Hmalloc.
  rewrite ReadChunk_spec. unfold wire_payload, wire_next.
  unfold wire_crc in *. rewrite Hlen in *. rewrite Hmalloc. cbn [negb].
  change (memcpy_from buffer (u32 (cursor + 8)) 0) with (@nil byte).
  rewrite Hcrc, Z.eqb_refl, Z.add_0_r. reflexivity.
Qed.




(** The size that [main] gets for a file of fewer than 2^31 bytes is
    its length, and the whole file is read. *)
Lemma GetFileSize_small (bytes : list byte) :
  Z.of_nat (length bytes) < 2 ^ 31 ->
  GetFileSize (Some bytes) = Z.of_nat (length bytes).
Proof.
  intros Hlen. unfold GetFileSize. rewrite u32_small by lia. unfold int_of_u32.
  destruct (Z.ltb_spec (Z.of_nat (length bytes)) (2 ^ 31)); [reflexivity|lia].
Qed.

Lemma fread_s_whole (bytes : list byte) :
  fread_s bytes (Z.of_nat (length bytes)) = bytes.
Proof.
  unfold fread_s. destruct (Z.ltb_spec (Z.of_nat (length bytes)) 0); [lia|].
  rewrite Nat2Z.id. apply firstn_all.
Qed.

(** What [main] does before its loop, on a file of at least 8 and fewer
    than 2^31 bytes. *)
Lemma main_read_chunks_checks_signature (bytes : list byte) (beyond : memory) (fuel : nat) :
  8 <= Z.of_nat (length bytes) < 2 ^ 31 ->
  malloc_ok (Z.of_nat (length bytes)) = true ->
  main_read_chunks fuel (Some bytes) beyond
  = if list_eq_dec Byte.byte_eq_dec (firstn 8 bytes) pngSignature
    then main_loop fuel (buffer_memory bytes beyond) 8 [] 0 IsLittleEndian
    else Some (Err InvalidPngSignature).
Proof.
  intros Hlen Hmalloc.
  unfold main_read_chunks. rewrite GetFileSize_small by lia.
  unfold FillBuffer. rewrite Hmalloc.
  destruct (Z.eqb_spec (Z.of_nat (length bytes)) (-1)); [lia|].
  rewrite fread_s_whole.
  destruct (Z.leb_spec (Z.of_nat (length bytes)) 0); [lia|].
  unfold PNG_SIGNATURE_LENGTH. rewrite memcpy_from_buffer_prefix by lia.
  cbn [negb].
  assert (Hcmp : memcmp pngSignature (firstn 8 bytes) = 0 <-> firstn 8 bytes = pngSignature).
  { rewrite memcmp_zero
      by (rewrite length_firstn; change (length pngSignature) with 8%nat; lia).
    split; intros Heq; symmetry; exact Heq. }
  change (Z.to_nat 8) with 8%nat.
  destruct (list_eq_dec Byte.byte_eq_dec (firstn 8 bytes) pngSignature) as [E|E];
    destruct (Z.eqb_spec (memcmp pngSignature (firstn 8 bytes)) 0) as [E'|E'];
    try reflexivity.
  - apply Hcmp in E. contradiction.
  - apply Hcmp in E'. contradiction.
Qed.

(** C3, as the code has it.  For a file of at least 8 and fewer than
    2^31 bytes (its size is kept in an [int]), [main] compares its first 8
    bytes with the signature before its loop has read a chunk: if they
    differ it fails with the signature message whatever the fuel, 0
    included; if they are the signature the loop starts with the cursor
    at 8. *)
Theorem signature_is_checked_first (bytes : list byte) (beyond : memory) (fuel : nat) :
  8 <= Z.of_nat (length bytes) < 2 ^ 31 ->
  malloc_ok (Z.of_nat (length bytes)) = true ->
  main_read_chunks fuel (Some bytes) beyond
  = if list_eq_dec Byte.byte_eq_dec (firstn 8 bytes) pngSignature
    then main_loop fuel (buffer_memory bytes beyond) 8 [] 0 IsLittleEndian
    else Some (Err InvalidPngSignature).
Proof. apply main_read_chunks_checks_signature. Qed.

(** Reading a record from a buffer: success exactly when the checksum
    field holds the checksum of the chunk; either way the cursor ends
    right after the record. *)
Lemma ReadChunk_record (pre tag payload rest : list byte) (stored : Z) (beyond : memory) :
  length tag = 4%nat -> fits32 stored ->
  Z.of_nat (length (pre ++ chunk_record tag payload stored ++ rest)) < 2 ^ 32 ->
  malloc_ok (Z.of_nat (length payload)) = true ->
  ReadChunk (buffer_memory (pre ++ chunk_record tag payload stored ++ rest) beyond)
            (Z.of_nat (length pre)) IsLittleEndian
  = (if stored =? chunk_crc crc32 tag payload
     then Ok (chunk_of tag payload)
     else Err (ChecksumFailed stored (chunk_crc crc32 tag payload)),
     Z.of_nat (length pre) + Z.of_nat (length (chunk_record tag payload stored))).
Proof.
  intros Htag Hstored Hsize Hmalloc.
  destruct (record_fields pre tag payload rest stored beyond Htag Hstored Hsize)
    as (El & Et & Ep & Ec & En).
  rewrite ReadChunk_spec, El, Et, Ep, Ec, En, Hmalloc. cbn [negb].
  destruct (stored =? chunk_crc crc32 tag payload); reflexivity.
Qed.

(** Reading a record that was laid out by [encode_chunk] gives the chunk
    back and leaves the cursor right after the record. *)
Lemma ReadChunk_encoded (pre tag payload rest : list byte) (beyond : memory) :
  length tag = 4%nat ->
  Z.of_nat (length (pre ++ encode_chunk tag payload ++ rest)) < 2 ^ 32 ->
  malloc_ok (Z.of_nat (length payload)) = true ->
  ReadChunk (buffer_memory (pre ++ encode_chunk tag payload ++ rest) beyond)
            (Z.of_nat (length pre)) IsLittleEndian
  = (Ok (chunk_of tag payload),
     Z.of_nat (length pre) + Z.of_nat (length (encode_chunk tag payload))).
Proof.
  intros Htag Hsize Hmalloc. unfold encode_chunk in *.
  rewrite ReadChunk_record by (try apply chunk_crc_range; assumption).
  rewrite Z.eqb_refl. reflexivity.
Qed.

Lemma AppendChunk_grows (arr : list Chunk) (chunk : Chunk) :
  malloc_ok ((Z.of_nat (length arr) + 1) * sizeof_Chunk) = true ->
  AppendChunk sizeof_Chunk malloc_ok arr (Z.of_nat (length arr) + 1) chunk
  = Ok (arr ++ [chunk]).
Proof.
  intros Hmalloc. unfold AppendChunk. rewrite Hmalloc. cbn [negb].
  replace (Z.to_nat (Z.of_nat (length arr) + 1 - 1)) with (length arr) by lia.
  rewrite firstn_all. reflexivity.
Qed.

Lemma length_encode_chunks_ge (cs : list (list byte * list byte)) :
  Z.of_nat (length cs) <= Z.of_nat (length (encode_chunks cs)).
Proof.
  induction cs as [|[tag payload] cs IH]; [reflexivity|].
  cbn [encode_chunks flat_map length fst snd].
  fold (encode_chunks cs).
  rewrite length_app, Nat2Z.inj_add, length_encode_chunk. lia.
Qed.

(** The loop of [main] over a run of encoded chunks, none of them
    [IEND], from any point of the walk: after as many rounds as there are
    chunks, the loop stands right after the run with the chunks appended
    to the array. *)
Lemma main_loop_prefix (rest : list byte) (beyond : memory)
      (cs : list (list byte * list byte)) :
  forall (pre : list byte) (arr : list Chunk) (fuel : nat),
    Forall (fun c => length (fst c) = 4%nat /\ fst c <> IEND_tag) cs ->
    Z.of_nat (length (pre ++ encode_chunks cs ++ rest)) < 2 ^ 32 ->
    Z.of_nat (length arr) + Z.of_nat (length cs) < 2 ^ 32 ->
    (forall n, malloc_ok n = true) ->
    main_loop (length cs + fuel)
      (buffer_memory (pre ++ encode_chunks cs ++ rest) beyond)
      (Z.of_nat (length pre)) arr (Z.of_nat (length arr)) IsLittleEndian
    = main_loop fuel
        (buffer_memory (pre ++ encode_chunks cs ++ rest) beyond)
        (Z.of_nat (length (pre ++ encode_chunks cs))) (arr ++ chunks_of cs)
        (Z.of_nat (length (arr ++ chunks_of cs))) IsLittleEndian.
Proof.
  induction cs as [|[tag payload] cs IH]; intros pre arr fuel Hcs Hsize Hcount Hmalloc.
  - cbn [encode_chunks flat_map chunks_of map length Nat.add]. rewrite !app_nil_r.
    reflexivity.
  - inversion Hcs as [|? ? [Htag Hnot] Hcs']; subst. cbn [fst snd] in *.
    cbn [encode_chunks flat_map fst snd] in *. fold (encode_chunks cs) in *.
    rewrite <- app_assoc in *.
    cbn [length Nat.add main_loop].
    rewrite ReadChunk_encoded by (try apply Hmalloc; assumption).
    rewrite (u32_small (Z.of_nat (length arr) + 1)) by (cbn [length] in Hcount; lia).
    rewrite AppendChunk_grows by apply Hmalloc.
    destruct (Z.eqb_spec (strcmp (type (chunk_of tag payload)) LAST_CHUNK_TYPE_SIGNATURE) 0)
      as [E|_].
    { exfalso. apply Hnot.
      apply (strcmp_terminated tag IEND_tag);
        [exact Htag | apply tag_has_no_NUL_IEND | exact E]. }
    rewrite (app_assoc pre).
    replace (Z.of_nat (length pre) + Z.of_nat (length (encode_chunk tag payload)))
      with (Z.of_nat (length (pre ++ encode_chunk tag payload)))
      by (rewrite length_app; lia).
    replace (Z.of_nat (length arr) + 1)
      with (Z.of_nat (length (arr ++ [chunk_of tag payload])))
      by (rewrite length_app; cbn [length]; lia).
    rewrite IH.
    + cbn [chunks_of map]. rewrite <- !app_assoc. reflexivity.
    + exact Hcs'.
    + rewrite <- app_assoc. exact Hsize.
    + rewrite length_app. cbn [length] in *. lia.
    + exact Hmalloc.
Qed.

Lemma length_chunks_of (cs : list (list byte * list byte)) :
  length (chunks_of cs) = length cs.
Proof. apply length_map. Qed.

(** The walk over such a run followed by an [IEND] chunk. *)
Lemma main_loop_walk (pe trailing : list byte) (beyond : memory)
      (cs : list (list byte * list byte)) (pre : list byte) (fuel : nat) :
  Forall (fun c => length (fst c) = 4%nat /\ fst c <> IEND_tag) cs ->
  Z.of_nat (length (pre ++ encode_chunks cs ++ encode_chunk IEND_tag pe ++ trailing))
  < 2 ^ 32 ->
  (forall n, malloc_ok n = true) ->
  (length cs < fuel)%nat ->
  main_loop fuel
    (buffer_memory (pre ++ encode_chunks cs ++ encode_chunk IEND_tag pe ++ trailing) beyond)
    (Z.of_nat (length pre)) [] 0 IsLittleEndian
  = Some (Ok (chunks_of cs ++ [chunk_of IEND_tag pe],
              Z.of_nat (length cs) + 1,
              Z.of_nat (length pre) + Z.of_nat (length (encode_chunks cs))
              + Z.of_nat (length (encode_chunk IEND_tag pe)))).
Proof.
  intros Hcs Hsize Hmalloc Hfuel.
  pose proof (length_encode_chunks_ge cs) as Hge.
  assert (Hcount : Z.of_nat (length cs) + 1 < 2 ^ 32).
  { rewrite !length_app, !Nat2Z.inj_add, length_encode_chunk in Hsize. lia. }
  replace fuel with (length cs + S (fuel - length cs - 1))%nat by lia.
  change 0 with (Z.of_nat (length (@nil Chunk))).
  rewrite main_loop_prefix by (try assumption; cbn [length]; lia).
  cbn [app main_loop]. rewrite app_assoc.
  rewrite ReadChunk_encoded
    by (try reflexivity; try apply Hmalloc; rewrite <- app_assoc; exact Hsize).
  rewrite length_chunks_of.
  rewrite (u32_small (Z.of_nat (length cs) + 1)) by lia.
  rewrite <- (length_chunks_of cs) at 1 2.
  rewrite AppendChunk_grows by apply Hmalloc.
  change (strcmp (type (chunk_of IEND_tag pe)) LAST_CHUNK_TYPE_SIGNATURE) with 0.
  cbn [Z.eqb]. rewrite length_chunks_of, length_app. do 3 f_equal. lia.
Qed.

(** The walk over such a run followed by a record whose checksum field
    does not hold the checksum of its type and payload: the failure of
    that record is the result, and none of the chunks before it is
    returned. *)
Lemma main_loop_stops_at_corrupt_record (tag payload rest : list byte) (stored : Z)
      (beyond : memory) (cs : list (list byte * list byte)) (pre : list byte) (fuel : nat) :
  Forall (fun c => length (fst c) = 4%nat /\ fst c <> IEND_tag) cs ->
  length tag = 4%nat -> fits32 stored ->
  stored <> chunk_crc crc32 tag payload ->
  Z.of_nat (length (pre ++ encode_chunks cs ++ chunk_record tag payload stored ++ rest))
  < 2 ^ 32 ->
  (forall n, malloc_ok n = true) ->
  (length cs < fuel)%nat ->
  main_loop fuel
    (buffer_memory (pre ++ encode_chunks cs ++ chunk_record tag payload stored ++ rest)
                   beyond)
    (Z.of_nat (length pre)) [] 0 IsLittleEndian
  = Some (Err (ChecksumFailed stored (chunk_crc crc32 tag payload))).
Proof.
  intros Hcs Htag Hstored Hbad Hsize Hmalloc Hfuel.
  pose proof (length_encode_chunks_ge cs) as Hge.
  assert (Hcount : Z.of_nat (length cs) + 1 < 2 ^ 32).
  { rewrite !length_app, !Nat2Z.inj_add, length_chunk_record in Hsize. lia. }
  replace fuel with (length cs + S (fuel - length cs - 1))%nat by lia.
  change 0 with (Z.of_nat (length (@nil Chunk))).
  rewrite main_loop_prefix by (try assumption; cbn [length]; lia).
  cbn [app main_loop]. rewrite app_assoc.
  rewrite ReadChunk_record
    by (try assumption; try apply Hmalloc; rewrite <- app_assoc; exact Hsize).
  destruct (Z.eqb_spec stored (chunk_crc crc32 tag payload)) as [E|_]; [contradiction|].
  reflexivity.
Qed.




(** C4.  On a file made of the signature, any chunks other than [IEND],
    an [IEND] chunk and anything after it, the walk of [main] returns the
    chunks in file order from the one right after the signature, with
    the [IEND] chunk as the last element; the cursor stops right after
    the [IEND] record, so what follows it is not read. *)
Theorem walk_returns_chunks_through_terminator
        (cs : list (list byte * list byte)) (pe trailing : list byte)
        (beyond : memory) (fuel : nat) :
  let file := pngSignature ++ encode_chunks cs ++ encode_chunk IEND_tag pe ++ trailing in
  Forall (fun c => length (fst c) = 4%nat /\ fst c <> IEND_tag) cs ->
  Z.of_nat (length file) < 2 ^ 31 ->
  (forall n, malloc_ok n = true) ->
  (length cs < fuel)%nat ->
  main_read_chunks fuel (Some file) beyond
  = Some (Ok (chunks_of cs ++ [chunk_of IEND_tag pe],
              Z.of_nat (length cs) + 1,
              Z.of_nat (length file) - Z.of_nat (length trailing))).
Proof.
  intros file Hcs Hsize Hmalloc Hfuel.
  assert (Hlen : Z.of_nat (length file)
                 = 8 + Z.of_nat (length (encode_chunks cs))
                   + Z.of_nat (length (encode_chunk IEND_tag pe))
                   + Z.of_nat (length trailing)).
  { unfold file. rewrite !length_app. change (length pngSignature) with 8%nat. lia. }
  pose proof (length_encode_chunks_ge cs) as Hge.
  rewrite main_read_chunks_checks_signature by (try apply Hmalloc; lia).
  destruct (list_eq_dec Byte.byte_eq_dec (firstn 8 file) pngSignature) as [_|E];
    [|exfalso; apply E; reflexivity].
  change 8 with (Z.of_nat (length pngSignature)) at 1.
  unfold file. rewrite main_loop_walk; try assumption.
  - do 3 f_equal. rewrite !length_app. lia.
  - fold file. lia.
Qed.

(** The same from the start of a file: a corrupt record anywhere before
    the [IEND] chunk makes the whole walk fail. *)
Lemma parse_stops_at_corrupt_record
      (cs : list (list byte * list byte)) (tag payload rest : list byte) (stored : Z)
      (beyond : memory) (fuel : nat) :
  let file := pngSignature ++ encode_chunks cs ++ chunk_record tag payload stored ++ rest in
  Forall (fun c => length (fst c) = 4%nat /\ fst c <> IEND_tag) cs ->
  length tag = 4%nat -> fits32 stored ->
  stored <> chunk_crc crc32 tag payload ->
  Z.of_nat (length file) < 2 ^ 31 ->
  (forall n, malloc_ok n = true) ->
  (length cs < fuel)%nat ->
  main_read_chunks fuel (Some file) beyond
  = Some (Err (ChecksumFailed stored (chunk_crc crc32 tag payload))).
Proof.
  intros file Hcs Htag Hstored Hbad Hsize Hmalloc Hfuel.
  assert (Hlen : 8 <= Z.of_nat (length file)).
  { unfold file. rewrite length_app. change (length pngSignature) with 8%nat. lia. }
  rewrite main_read_chunks_checks_signature by (try apply Hmalloc; lia).
  destruct (list_eq_dec Byte.byte_eq_dec (firstn 8 file) pngSignature) as [_|E];
    [|exfalso; apply E; reflexivity].
  change 8 with (Z.of_nat (length pngSignature)) at 1.
  unfold file. apply main_loop_stops_at_corrupt_record; try assumption.
  fold file. lia.
Qed.

End Container.

(** ** The inflater *)

Lemma Forall_prefix {A : Type} (P : A -> Prop) (k : nat) (l : list A) :
  Forall P l -> Forall P (firstn k l).
Proof.
  intros H. revert k. induction H as [|x l Hx _ IH]; intros [|k]; cbn [firstn];
    constructor; auto.
Qed.

Lemma memcpy_from_memcpy_to (m : memory) (src : list byte) :
  memcpy_from (memcpy_to m 0 src) 0 (Z.of_nat (length src)) = src.
Proof.
  apply (nth_ext _ _ x00 x00).
  - rewrite length_memcpy_from. lia.
  - intros i Hi. rewrite length_memcpy_from in Hi.
    rewrite nth_memcpy_from by exact Hi. unfold memcpy_to.
    destruct (Z.leb_spec 0 (0 + Z.of_nat i)); [|lia].
    destruct (Z.ltb_spec (0 + Z.of_nat i) (0 + Z.of_nat (length src))); [|lia].
    cbn [andb]. f_equal. lia.
Qed.

Section Inflater.

Variable ULONG_MAX : Z.
Variable malloc_ok : Z -> bool.
Variable malloc_again_ok : Z -> bool.
Variable fresh : memory.
Variable uncompress : Z -> list byte -> Z * list byte.

Local Abbreviation idat_loop := (idat_loop ULONG_MAX).
Local Abbreviation compressed_input := (compressed_input ULONG_MAX fresh).
Local Abbreviation compressed_size := (compressed_size ULONG_MAX fresh).
Local Abbreviation DecompressIdatChuncks :=
  (DecompressIdatChuncks ULONG_MAX malloc_ok malloc_again_ok fresh uncompress).

Lemma idat_loop_app_skips (pre rest : list Chunk) (source : memory) (index size : Z) :
  Forall not_image_data pre ->
  idat_loop (pre ++ rest) source index size = idat_loop rest source index size.
Proof.
  induction 1 as [|c pre [Hlen Hc] _ IH]; [reflexivity|].
  cbn [app idat_loop].
  destruct (Z.eqb_spec (strcmp (type c) DATA_CHUNK_TYPE) 0) as [E|_]; [|exact IH].
  exfalso. apply Hc.
  apply (strcmp_zero IDAT_tag tag_has_no_NUL_IDAT); [exact Hlen | exact E].
Qed.

Lemma idat_loop_skips (chunks : list Chunk) (source : memory) (index size : Z) :
  Forall not_image_data chunks ->
  idat_loop chunks source index size = (source, index, size).
Proof.
  intros H. rewrite <- (app_nil_r chunks), idat_loop_app_skips by exact H.
  reflexivity.
Qed.

(** With a single image-data chunk among the chunks, what reaches
    [uncompress] is the payload of that chunk. *)
Lemma compressed_input_of_one_idat (pre post : list Chunk) (payload : list byte) :
  Forall not_image_data pre -> Forall not_image_data post ->
  Z.of_nat (length payload) <= ULONG_MAX ->
  compressed_input (pre ++ chunk_of IDAT_tag payload :: post)
                   (Z.of_nat (length (pre ++ chunk_of IDAT_tag payload :: post)))
  = payload.
Proof.
  intros Hpre Hpost Hlen. unfold compressed_input.
  rewrite Nat2Z.id, firstn_all, idat_loop_app_skips by exact Hpre.
  cbn [idat_loop].
  change (strcmp (type (chunk_of IDAT_tag payload)) DATA_CHUNK_TYPE =? 0) with true.
  cbn [chunk_of dataLength data].
  rewrite <- (app_nil_r post), idat_loop_app_skips by exact Hpost.
  cbn [idat_loop].
  rewrite Nat2Z.id, firstn_all. unfold ulong.
  rewrite Z.add_0_l, Z.mod_small by lia.
  apply memcpy_from_memcpy_to.
Qed.

(** And [compressedSize] is the length of that payload. *)
Lemma compressed_size_of_one_idat (pre post : list Chunk) (payload : list byte) :
  Forall not_image_data pre -> Forall not_image_data post ->
  Z.of_nat (length payload) <= ULONG_MAX ->
  compressed_size (pre ++ chunk_of IDAT_tag payload :: post)
                  (Z.of_nat (length (pre ++ chunk_of IDAT_tag payload :: post)))
  = Z.of_nat (length payload).
Proof.
  intros Hpre Hpost Hlen. unfold compressed_size.
  rewrite Nat2Z.id, firstn_all, idat_loop_app_skips by exact Hpre.
  cbn [idat_loop].
  change (strcmp (type (chunk_of IDAT_tag payload)) DATA_CHUNK_TYPE =? 0) with true.
  cbn [chunk_of dataLength data].
  rewrite <- (app_nil_r post), idat_loop_app_skips by exact Hpost.
  cbn [idat_loop snd]. unfold ulong.
  rewrite Z.add_0_l, Z.mod_small by lia. reflexivity.
Qed.

(** C8, as the code has it.  [DecompressIdatChuncks] makes no test for
    an array without image-data chunks and has no error for it.  On such
    an array it fails with the allocation message when its first
    [malloc] fails, as on any array; when that [malloc] succeeds the loop
    copies nothing, [compressedSize] stays 0, nothing would reach
    [uncompress], and the function goes on to
    [realloc(compressedSource, 0)], from where the run is not defined.
    No argument of the function carries the verdict on the header. *)
Theorem no_image_data_has_no_error_of_its_own
        (chunks : list Chunk) (chunkArraySize : Z)
        (uncompressedDestination : memory) (uncompressedSize : Z) :
  Forall not_image_data chunks ->
  idat_loop (firstn (Z.to_nat chunkArraySize) chunks) fresh 0 0 = (fresh, 0, 0)
  /\ compressed_input chunks chunkArraySize = []
  /\ DecompressIdatChuncks chunks chunkArraySize uncompressedDestination uncompressedSize
     = (if malloc_ok ULONG_MAX then Err SourceReleased
        else Err CantAllocateCompressedSource).
Proof.
  intros Hchunks.
  assert (Hloop : idat_loop (firstn (Z.to_nat chunkArraySize) chunks) fresh 0 0
                  = (fresh, 0, 0))
    by (apply idat_loop_skips, Forall_prefix; exact Hchunks).
  split; [exact Hloop|].
  assert (Hin : compressed_input chunks chunkArraySize = [])
    by (unfold compressed_input; rewrite Hloop; reflexivity).
  split; [exact Hin|].
  unfold DecompressIdatChuncks, compressed_size. rewrite Hloop.
  destruct (malloc_ok ULONG_MAX); reflexivity.
Qed.

End Inflater.

(** ** The header validator *)

(** The three checks on bit depth and colour type accept exactly the
    pairs of the table, and a pair of a valid bit depth and a valid colour
    type that is not in the table fails the third. *)
Lemma header_checks_are_the_table (d c : Z) :
  (bitDepth_invalid d || colorType_invalid c || pair_invalid c d) = negb (legal_pair d c).
Proof.
  unfold bitDepth_invalid, colorType_invalid, pair_invalid, legal_pair,
    GRAYSCALE, TRUECOLOR, INDEXED_COLOR, GRAYSCALE_WITH_ALPHA, TRUECOLOR_WITH_ALPHA.
  destruct (c =? 0) eqn:C0, (c =? 2) eqn:C2, (c =? 3) eqn:C3, (c =? 4) eqn:C4,
    (c =? 6) eqn:C6, (d =? 1) eqn:D1, (d =? 2) eqn:D2, (d =? 4) eqn:D4, (d =? 8) eqn:D8,
    (d =? 16) eqn:D16;
    try reflexivity; exfalso;
    rewrite ?Z.eqb_eq, ?Z.eqb_neq in *; lia.
Qed.

Lemma le32_positive (bs : list byte) : 0 < be32 bs -> 0 < le32 bs.
Proof.
  destruct bs as [|b0 [|b1 [|b2 [|b3 [|? ?]]]]]; cbn [be32 le32]; try lia.
  pose proof (byte_val_range b0). pose proof (byte_val_range b1).
  pose proof (byte_val_range b2). pose proof (byte_val_range b3). lia.
Qed.

(** On a little-endian host, with the upper three bytes of the two wide
    fields zero before the call, a header with positive dimensions,
    compression and filter method 0 and a valid interlace method is
    judged by the table alone. *)
Lemma GetIhdrChunkData_on_clean_fields
      (w h len : Z) (d c im : byte) (tag extra : list byte) (ihdr : Ihdr) :
  0 < w < 2 ^ 32 -> 0 < h < 2 ^ 32 ->
  byte_val im = 0 \/ byte_val im = 1 ->
  13 <= len ->
  0 <= bitDepth ihdr < 256 -> 0 <= colorType ihdr < 256 ->
  GetIhdrChunkData true
    (mkChunk len tag (be32_bytes w ++ be32_bytes h ++ [d; c; x00; x00; im] ++ extra))
    ihdr (IsLittleEndian true)
  = if bitDepth_invalid (byte_val d) then Err IhdrInvalidBitDepth
    else if colorType_invalid (byte_val c) then Err IhdrInvalidColorType
    else if legal_pair (byte_val d) (byte_val c)
         then Ok (mkIhdr w h (byte_val d) (byte_val c) x00 x00 im)
         else Err IhdrInvalidPair.
Proof.
  intros Hw Hh Him Hlen Hd Hc.
  pose proof (header_checks_are_the_table (byte_val d) (byte_val c)) as Htable.
  unfold GetIhdrChunkData, IsLittleEndian, load_uint, store_first_byte.
  cbn [dataLength data].
  destruct (Z.ltb_spec len IHDR_LENGTH) as [Hlt|_]; [unfold IHDR_LENGTH in Hlt; lia|].
  cbn [guard bind].
  change (slice (be32_bytes w ++ be32_bytes h ++ [d; c; x00; x00; im] ++ extra)
                0 IHDR_WIDTH_BYTES) with (be32_bytes w).
  change (slice (be32_bytes w ++ be32_bytes h ++ [d; c; x00; x00; im] ++ extra)
                (0 + IHDR_WIDTH_BYTES) IHDR_HEIGHT_BYTES) with (be32_bytes h).
  change (nth (Z.to_nat (0 + IHDR_WIDTH_BYTES + IHDR_HEIGHT_BYTES))
              (be32_bytes w ++ be32_bytes h ++ [d; c; x00; x00; im] ++ extra) x00) with d.
  change (nth (Z.to_nat (0 + IHDR_WIDTH_BYTES + IHDR_HEIGHT_BYTES + IHDR_OTHER_BYTES))
              (be32_bytes w ++ be32_bytes h ++ [d; c; x00; x00; im] ++ extra) x00) with c.
  change (nth (Z.to_nat (0 + IHDR_WIDTH_BYTES + IHDR_HEIGHT_BYTES + IHDR_OTHER_BYTES
                         + IHDR_OTHER_BYTES))
              (be32_bytes w ++ be32_bytes h ++ [d; c; x00; x00; im] ++ extra) x00) with x00.
  change (nth (Z.to_nat (0 + IHDR_WIDTH_BYTES + IHDR_HEIGHT_BYTES + IHDR_OTHER_BYTES
                         + IHDR_OTHER_BYTES + IHDR_OTHER_BYTES))
              (be32_bytes w ++ be32_bytes h ++ [d; c; x00; x00; im] ++ extra) x00) with x00.
  change (nth (Z.to_nat (0 + IHDR_WIDTH_BYTES + IHDR_HEIGHT_BYTES + IHDR_OTHER_BYTES
                         + IHDR_OTHER_BYTES + IHDR_OTHER_BYTES + IHDR_OTHER_BYTES))
              (be32_bytes w ++ be32_bytes h ++ [d; c; x00; x00; im] ++ extra) x00) with im.
  rewrite !ToLittleEndian_le32 by reflexivity.
  rewrite !be32_of_bytes by lia.
  pose proof (le32_positive (be32_bytes w)) as Hw'.
  pose proof (le32_positive (be32_bytes h)) as Hh'.
  rewrite be32_of_bytes in Hw', Hh' by lia.
  destruct (Z.leb_spec (le32 (be32_bytes w)) 0); [lia|].
  destruct (Z.leb_spec (le32 (be32_bytes h)) 0); [lia|].
  cbn [guard bind].
  pose proof (byte_val_range d). pose proof (byte_val_range c).
  change (2 ^ 8) with 256.
  rewrite (Z.mod_small (bitDepth ihdr)), (Z.mod_small (colorType ihdr)) by lia.
  replace (bitDepth ihdr - bitDepth ihdr + byte_val d) with (byte_val d) by lia.
  replace (colorType ihdr - colorType ihdr + byte_val c) with (byte_val c) by lia.
  change (byte_val x00 =? 0) with true.
  destruct (bitDepth_invalid (byte_val d)); [reflexivity|].
  destruct (colorType_invalid (byte_val c)); [reflexivity|].
  cbn [orb] in Htable. rewrite Htable.
  destruct (legal_pair (byte_val d) (byte_val c)); cbn [negb guard bind]; [|reflexivity].
  destruct Him as [-> | ->]; reflexivity.
Qed.

(** ** The program *)

Section Program.

Variable host_le : bool.
Variable ULONG_MAX : Z.
Variable sizeof_Chunk : Z.
Variable malloc_ok : Z -> bool.
Variable malloc_again_ok : Z -> bool.
Variable fresh : memory.
Variable crc32 : Z -> list byte -> Z.

Local Abbreviation main_read_chunks :=
  (main_read_chunks host_le sizeof_Chunk malloc_ok crc32).
Local Abbreviation main :=
  (main host_le ULONG_MAX sizeof_Chunk malloc_ok malloc_again_ok fresh crc32).

(** A failure of the walk is the result of [main], whatever the
    decompressor. *)
Lemma main_returns_failure_of_walk (uncompress : Z -> list byte -> Z * list byte)
      (fuel : nat) (file : option (list byte)) (beyond : memory) (ihdr : Ihdr)
      (uncompressedDestination : memory) (e : error) :
  main_read_chunks fuel file beyond = Some (Err e) ->
  main uncompress fuel file beyond ihdr uncompressedDestination = Some (Err e).
Proof. intros H. unfold main. rewrite H. reflexivity. Qed.

(** What [main] prints does not depend on the bytes that the
    decompressor produces, only on its return code and on how many bytes
    it reports: two decompressors that agree on these give the same run of
    [main]. *)
Lemma main_ignores_inflated_bytes (uncompress uncompress' : Z -> list byte -> Z * list byte)
      (fuel : nat) (file : option (list byte)) (beyond : memory) (ihdr : Ihdr)
      (uncompressedDestination : memory) :
  (forall destLen source,
      fst (uncompress destLen source) = fst (uncompress' destLen source)
      /\ length (snd (uncompress destLen source))
         = length (snd (uncompress' destLen source))) ->
  main uncompress fuel file beyond ihdr uncompressedDestination
  = main uncompress' fuel file beyond ihdr uncompressedDestination.
Proof.
  intros Hsame. unfold main.
  destruct (main_read_chunks fuel file beyond) as [[[[arr n] c]|e]|]; try reflexivity.
  destruct (GetIhdrChunkData host_le (hd (mkChunk 0 [] []) arr) ihdr (IsLittleEndian host_le))
    as [ihdr'|e]; [|reflexivity].
  unfold DecompressIdatChuncks.
  destruct (malloc_ok ULONG_MAX); cbn [negb guard bind]; [|reflexivity].
  destruct (compressed_size ULONG_MAX fresh arr n =? 0); cbn [guard bind]; [reflexivity|].
  destruct (malloc_again_ok ULONG_MAX); cbn [negb guard bind]; [|reflexivity].
  destruct (Hsame ULONG_MAX (compressed_input ULONG_MAX fresh arr n)) as [Hcode Hlen].
  destruct (uncompress ULONG_MAX (compressed_input ULONG_MAX fresh arr n)) as [r w].
  destruct (uncompress' ULONG_MAX (compressed_input ULONG_MAX fresh arr n)) as [r' w'].
  cbn [fst snd] in Hcode, Hlen. subst r'.
  destruct (r =? Z_OK); cbn [negb guard bind]; [|reflexivity].
  rewrite Hlen. reflexivity.
Qed.

End Program.

(** ** The decoder at work *)



Lemma checksum_mismatch_aborts_witness :
  serves_all (wire_length (buffer_memory tampered_png zeroes) 8) = true
  /\ wire_crc (buffer_memory tampered_png zeroes) 8
     <> chunk_crc zlib_crc32 (wire_type (buffer_memory tampered_png zeroes) 8)
                  (wire_payload (buffer_memory tampered_png zeroes) 8)
  /\ fst (ReadChunk true serves_all zlib_crc32 (buffer_memory tampered_png zeroes) 8
                    (IsLittleEndian true))
     = Err (ChecksumFailed 2423739358 3236401053)
  /\ main_loop true sizeof_Chunk_32 serves_all zlib_crc32 1
       (buffer_memory tampered_png zeroes) 8 [] 0 (IsLittleEndian true)
     = Some (Err (ChecksumFailed 2423739358 3236401053)).
Proof.
  split; [reflexivity|]. split; [vm_compute; discriminate|].
  destruct (checksum_mismatch_aborts true sizeof_Chunk_32 serves_all zlib_crc32
              (buffer_memory tampered_png zeroes) 8) as [Hread Hloop];
    [reflexivity | vm_compute; discriminate |].
  split; [exact Hread | exact (Hloop 0%nat [] 0)].
Defined.

Lemma signature_is_checked_first_witness :
  8 <= Z.of_nat (length (x00 :: tampered_png)) < 2 ^ 31
  /\ 8 <= Z.of_nat (length tiny_png) < 2 ^ 31
  /\ serves_all (Z.of_nat (length tiny_png)) = true
  /\ main_read_chunks true sizeof_Chunk_32 serves_all zlib_crc32 0
       (Some (x00 :: tampered_png)) zeroes
     = Some (Err InvalidPngSignature)
  /\ main_read_chunks true sizeof_Chunk_32 serves_all zlib_crc32 3
       (Some tiny_png) zeroes
     = main_loop true sizeof_Chunk_32 serves_all zlib_crc32 3
         (buffer_memory tiny_png zeroes) 8 [] 0 (IsLittleEndian true)
  /\ main_loop true sizeof_Chunk_32 serves_all zlib_crc32 3
       (buffer_memory tiny_png zeroes) 8 [] 0 (IsLittleEndian true)
     = Some (Ok (chunks_of [(IHDR_tag, ihdr_payload 8 TRUECOLOR);
                            (IDAT_tag, zlib_stored scanline)]
                 ++ [chunk_of IEND_tag []], 3, 72)).
Proof.
  assert (H1 : 8 <= Z.of_nat (length (x00 :: tampered_png)) < 2 ^ 31)
    by (split; [vm_compute; discriminate | vm_compute; reflexivity]).
  assert (H2 : 8 <= Z.of_nat (length tiny_png) < 2 ^ 31)
    by (split; [vm_compute; discriminate | vm_compute; reflexivity]).
  split; [exact H1|]. split; [exact H2|]. split; [reflexivity|]. split; [|split].
  - rewrite (signature_is_checked_first true sizeof_Chunk_32 serves_all zlib_crc32
               (x00 :: tampered_png) zeroes 0 H1 eq_refl).
    reflexivity.
  - rewrite (signature_is_checked_first true sizeof_Chunk_32 serves_all zlib_crc32
               tiny_png zeroes 3 H2 eq_refl).
    reflexivity.
  - vm_compute. reflexivity.
Defined.

Lemma walk_returns_chunks_through_terminator_witness :
  Forall (fun c : list byte * list byte => length (fst c) = 4%nat /\ fst c <> IEND_tag)
         [(IHDR_tag, ihdr_payload 8 TRUECOLOR); (IDAT_tag, zlib_stored scanline)]
  /\ Z.of_nat (length (tiny_png ++ scanline)) < 2 ^ 31
  /\ (forall n, serves_all n = true)
  /\ (2 < 3)%nat
  /\ main_read_chunks true sizeof_Chunk_32 serves_all zlib_crc32 3
       (Some (tiny_png ++ scanline)) stale
     = Some (Ok (chunks_of [(IHDR_tag, ihdr_payload 8 TRUECOLOR);
                            (IDAT_tag, zlib_stored scanline)]
                 ++ [chunk_of IEND_tag []], 3, 72)).
Proof.
  assert (Htags : Forall (fun c : list byte * list byte =>
                            length (fst c) = 4%nat /\ fst c <> IEND_tag)
                         [(IHDR_tag, ihdr_payload 8 TRUECOLOR);
                          (IDAT_tag, zlib_stored scanline)])
    by (repeat constructor; cbn [fst]; discriminate).
  assert (Hsize : Z.of_nat (length (tiny_png ++ scanline)) < 2 ^ 31)
    by (vm_compute; reflexivity).
  split; [exact Htags|]. split; [exact Hsize|].
  split; [intros n; reflexivity|]. split; [lia|].
  unfold tiny_png in *. rewrite <- !app_assoc in *.
  rewrite (walk_returns_chunks_through_terminator true sizeof_Chunk_32 serves_all
             zlib_crc32
             [(IHDR_tag, ihdr_payload 8 TRUECOLOR); (IDAT_tag, zlib_stored scanline)]
             [] scanline stale 3 Htags Hsize (fun n => eq_refl)); [reflexivity|].
  cbn [length]. lia.
Defined.

Lemma empty_chunk_is_read_witness :
  wire_length IEND_after_signature 8 = 0
  /\ wire_crc IEND_after_signature 8
     = chunk_crc zlib_crc32 (wire_type IEND_after_signature 8) []
  /\ serves_all 0 = true
  /\ ReadChunk true serves_all zlib_crc32 IEND_after_signature 8 (IsLittleEndian true)
     = (Ok (mkChunk 0 (IEND_tag ++ [x00]) []), 20).
Proof.
  split; [reflexivity|]. split; [vm_compute; reflexivity|]. split; [reflexivity|].
  rewrite (empty_chunk_is_read true serves_all zlib_crc32 IEND_after_signature 8);
    [reflexivity | reflexivity | vm_compute; reflexivity | reflexivity].
Defined.

(** [tampered_idat_png]: the header chunk is sound, the next record is
    not, and nothing is returned. *)
Lemma tampered_idat_png_is_refused :
  main_read_chunks true sizeof_Chunk_32 serves_all zlib_crc32 2
    (Some tampered_idat_png) zeroes
  = Some (Err (ChecksumFailed (chunk_crc zlib_crc32 IDAT_tag [])
                              (chunk_crc zlib_crc32 IDAT_tag (map mk_byte [1; 2; 3])))).
Proof.
  apply (parse_stops_at_corrupt_record true sizeof_Chunk_32 serves_all zlib_crc32
           [(IHDR_tag, ihdr_payload 8 TRUECOLOR)] IDAT_tag (map mk_byte [1; 2; 3])
           (encode_chunk zlib_crc32 IEND_tag []) (chunk_crc zlib_crc32 IDAT_tag [])
           zeroes 2).
  - repeat constructor; cbn [fst]; discriminate.
  - reflexivity.
  - apply chunk_crc_range.
  - vm_compute. discriminate.
  - vm_compute. reflexivity.
  - intros n. reflexivity.
  - cbn [length]. lia.
Qed.

(** C3: what the claim says fails on the empty file.  Its first 8 bytes
    are not the signature, and [main] fails with the message of
    [fread_s] reading nothing, not with the signature message. *)
Lemma empty_file_is_a_read_failure :
  firstn 8 (@nil byte) <> pngSignature
  /\ main_read_chunks true sizeof_Chunk_32 serves_all zlib_crc32 1 (Some []) zeroes
     = Some (Err ReadingWentWrong).
Proof. split; [discriminate | reflexivity]. Qed.

(** C8: what the claim says fails on a sequence of a header chunk and an
    [IEND] chunk.  Where the allocator refuses [ULONG_MAX] bytes the
    failure is the allocation failure of the compressed buffer, the same
    as for a sequence with image data; where it serves them, no failure
    is reported before [realloc(compressedSource, 0)].  Neither is a
    failure kept for a sequence without image data. *)
Lemma no_image_data_is_an_allocation_failure :
  Forall not_image_data no_idat
  /\ DecompressIdatChuncks ULONG_MAX_32 refuses_large serves_all stale stored_uncompress
       no_idat 2 stale ULONG_MAX_32
     = Err CantAllocateCompressedSource
  /\ DecompressIdatChuncks ULONG_MAX_32 refuses_large serves_all stale stored_uncompress
       two_idat 2 stale ULONG_MAX_32
     = Err CantAllocateCompressedSource
  /\ DecompressIdatChuncks ULONG_MAX_32 serves_all serves_all stale stored_uncompress
       no_idat 2 stale ULONG_MAX_32
     = Err SourceReleased.
Proof.
  split; [repeat constructor; discriminate|].
  repeat split; reflexivity.
Qed.

Lemma no_image_data_has_no_error_of_its_own_witness :
  Forall not_image_data no_idat
  /\ idat_loop ULONG_MAX_32 (firstn (Z.to_nat 2) no_idat) stale 0 0 = (stale, 0, 0)
  /\ compressed_input ULONG_MAX_32 stale no_idat 2 = []
  /\ DecompressIdatChuncks ULONG_MAX_32 refuses_large serves_all stale stored_uncompress
       no_idat 2 stale ULONG_MAX_32
     = Err CantAllocateCompressedSource.
Proof.
  assert (H : Forall not_image_data no_idat) by (repeat constructor; discriminate).
  split; [exact H|].
  destruct (no_image_data_has_no_error_of_its_own ULONG_MAX_32 refuses_large serves_all
              stale stored_uncompress no_idat 2 stale ULONG_MAX_32 H)
    as (Hloop & Hin & Hres).
  split; [exact Hloop|]. split; [exact Hin | exact Hres].
Defined.

(** C7.  [compressedSourceIndex] grows by one per image-data chunk, not
    by the length of the chunk: of two image-data chunks with payloads
    1 2 3 and 4 5 the second is copied to offset 1, over the rest of the
    first, and the five bytes handed to [uncompress] are 1 4 5 followed by
    two bytes that were never written.  They are not the payloads one
    after the other. *)
Theorem second_payload_lands_at_offset_one (fresh : memory) :
  compressed_input ULONG_MAX_32 fresh two_idat 2
  = map mk_byte [1; 4; 5] ++ [fresh 3; fresh 4]
  /\ compressed_input ULONG_MAX_32 fresh two_idat 2 <> flat_map data two_idat.
Proof.
  assert (H : compressed_input ULONG_MAX_32 fresh two_idat 2
              = map mk_byte [1; 4; 5] ++ [fresh 3; fresh 4])
    by (vm_compute; reflexivity).
  split; [exact H|]. rewrite H. vm_compute. discriminate.
Qed.

(** C9.  On [tiny_png], [uncompress] writes the four bytes of the
    scanline into the block that [DecompressIdatChuncks] allocated for its
    own copy of the pointer; [main] then prints through its own
    [uncompressedDestination], which was never assigned: for every memory
    [wild] that this pointer may refer to, the byte printed is the one
    found there, not the first byte of the scanline. *)
Theorem main_prints_through_unassigned_pointer (wild : memory) :
  DecompressIdatChuncks ULONG_MAX_32 serves_all serves_all stale stored_uncompress
    (chunks_of [(IHDR_tag, ihdr_payload 8 TRUECOLOR); (IDAT_tag, zlib_stored scanline);
                (IEND_tag, [])]) 3 wild ULONG_MAX_32
  = Ok (4, memcpy_to stale 0 scanline)
  /\ main true ULONG_MAX_32 sizeof_Chunk_32 serves_all serves_all stale zlib_crc32
          stored_uncompress 3 (Some tiny_png) zeroes ihdr_zeroed wild
     = Some (Ok [wild 0]).
Proof. split; vm_compute; reflexivity. Qed.

(** C6.  A legal pair is rejected: bit depth 8 with colour type 6 in a
    well-formed 13-byte header, read into an [Ihdr] whose [bitDepth] field
    held 0xCCCCCCCC before the call, fails with the bit depth message on a
    little-endian host; on a big-endian host it fails even when the field
    held 0. *)
Theorem legal_pair_is_rejected :
  GetIhdrChunkData true (chunk_of IHDR_tag (ihdr_payload 8 TRUECOLOR_WITH_ALPHA))
                   ihdr_stale (IsLittleEndian true)
  = Err IhdrInvalidBitDepth
  /\ GetIhdrChunkData false (chunk_of IHDR_tag (ihdr_payload 8 TRUECOLOR_WITH_ALPHA))
                      ihdr_zeroed (IsLittleEndian false)
     = Err IhdrInvalidBitDepth.
Proof. split; vm_compute; reflexivity. Qed.

(** C10.  The verdict on one and the same header chunk changes with what
    the caller's [Ihdr] held before the call: accepted when the fields
    were zero, rejected when they held 0xCCCCCCCC; and an accepted
    header comes back with the three upper bytes of [bitDepth] and
    [colorType] as they were found. *)
Theorem header_verdict_depends_on_prior_contents :
  GetIhdrChunkData true (chunk_of IHDR_tag (ihdr_payload 8 TRUECOLOR)) ihdr_zeroed
                   (IsLittleEndian true)
  = Ok (mkIhdr 1 1 8 TRUECOLOR x00 x00 x00)
  /\ GetIhdrChunkData true (chunk_of IHDR_tag (ihdr_payload 8 TRUECOLOR)) ihdr_stale
                      (IsLittleEndian true)
     = Err IhdrInvalidBitDepth
  /\ forall chunk ihdr,
       match GetIhdrChunkData true chunk ihdr (IsLittleEndian true) with
       | Ok ihdr' =>
           bitDepth ihdr' / 256 = bitDepth ihdr / 256
           /\ colorType ihdr' / 256 = colorType ihdr / 256
       | Err _ => True
       end.
Proof.
  split; [vm_compute; reflexivity|]. split; [vm_compute; reflexivity|].
  intros chunk ihdr. unfold GetIhdrChunkData.
  repeat match goal with
         | |- match bind (guard ?b ?e) _ with _ => _ end =>
             destruct b; cbn [guard bind]; [exact I|]
         end.
  cbn [bitDepth colorType].
  unfold store_first_byte. change (Z.pow_pos 2 8) with 256.
  split;
    match goal with
    | |- (_ - _ + byte_val ?b) / _ = _ => pose proof (byte_val_range b)
    end;
    Z.div_mod_to_equations; lia.
Qed.

(** * Further properties *)

(** * Further properties *)

(** ** Byte order *)

Lemma be32_is_le32_reversed (b0 b1 b2 b3 : byte) :
  be32 [b0; b1; b2; b3] = le32 [b3; b2; b1; b0].
Proof. unfold be32, le32. ring. Qed.

(** X1.  [ToLittleEndian] reverses the four bytes of an [unsigned int]:
    the number whose bytes are b0 b1 b2 b3 from the least significant
    one becomes the number whose bytes are b3 b2 b1 b0. *)
Theorem ToLittleEndian_reverses_bytes (b0 b1 b2 b3 : byte) :
  ToLittleEndian (le32 [b0; b1; b2; b3]) = le32 [b3; b2; b1; b0].
Proof.
  rewrite ToLittleEndian_le32 by reflexivity. apply be32_is_le32_reversed.
Qed.

Lemma le32_of_bytes (v : Z) :
  0 <= v < 2 ^ 32 ->
  le32 [mk_byte v; mk_byte (v / 2 ^ 8); mk_byte (v / 2 ^ 16); mk_byte (v / 2 ^ 24)] = v.
Proof.
  intros Hv. rewrite <- be32_is_le32_reversed. apply (be32_of_bytes v Hv).
Qed.

(** X2.  On the values of an [unsigned int], [ToLittleEndian] stays within
    32 bits and is its own inverse. *)
Theorem ToLittleEndian_involutive (v : Z) :
  0 <= v < 2 ^ 32 ->
  0 <= ToLittleEndian v < 2 ^ 32
  /\ ToLittleEndian (ToLittleEndian v) = v.
Proof.
  intros Hv. rewrite <- (le32_of_bytes v Hv).
  rewrite !ToLittleEndian_reverses_bytes. split; [|reflexivity].
  rewrite <- be32_is_le32_reversed. apply be32_range.
Qed.

(** ** The checksum *)

(** X3.  For a [crc32] that returns 0 for the empty run from 0, that
    continues a running value, and whose values fit 32 bits (zlib's
    does), the checksum that [ReadChunk] computes in three calls is the
    [crc32] of the type bytes followed by the payload. *)
Theorem checksum_is_crc_of_type_and_payload
        (crc32 : Z -> list byte -> Z) (tag payload : list byte) :
  crc32 0 [] = 0 ->
  (forall c a b, crc32 (crc32 c a) b = crc32 c (a ++ b)) ->
  (forall buf, 0 <= crc32 0 buf < 2 ^ 32) ->
  chunk_crc crc32 tag payload = crc32 0 (tag ++ payload).
Proof.
  intros Hseed Hrun Hfit. unfold chunk_crc.
  rewrite Hseed. change (u32 0) with 0.
  rewrite (u32_small (crc32 0 tag)) by apply Hfit.
  rewrite Hrun. apply u32_small. apply Hfit.
Qed.

(** ** More on the chunk reader and the walk *)

Section Reader.

Variable host_le : bool.
Variable sizeof_Chunk : Z.
Variable malloc_ok : Z -> bool.
Variable crc32 : Z -> list byte -> Z.

Local Abbreviation ReadChunk := (ReadChunk host_le malloc_ok crc32).
Local Abbreviation IsLittleEndian := (IsLittleEndian host_le).
Local Abbreviation AppendChunk := (AppendChunk sizeof_Chunk malloc_ok).
Local Abbreviation main_loop := (main_loop host_le sizeof_Chunk malloc_ok crc32).
Local Abbreviation main_read_chunks :=
  (main_read_chunks host_le sizeof_Chunk malloc_ok crc32).
Local Abbreviation encode_chunk := (encode_chunk crc32).
Local Abbreviation encode_chunks := (encode_chunks crc32).

(** X4.  Round trip of one chunk: from a buffer that holds, after any
    prefix, the record of a chunk with a four-byte type (length, type,
    payload, checksum of type and payload), [ReadChunk] returns 0 with
    that type, NUL-terminated, and that payload, and has moved the cursor
    by the 12 + length bytes of the record. *)
Theorem ReadChunk_reads_back_encoded_chunk
        (pre tag payload rest : list byte) (beyond : memory) :
  length tag = 4%nat ->
  Z.of_nat (length (pre ++ encode_chunk tag payload ++ rest)) < 2 ^ 32 ->
  malloc_ok (Z.of_nat (length payload)) = true ->
  ReadChunk (buffer_memory (pre ++ encode_chunk tag payload ++ rest) beyond)
            (Z.of_nat (length pre)) IsLittleEndian
  = (Ok (mkChunk (Z.of_nat (length payload)) (tag ++ [x00]) payload),
     Z.of_nat (length pre) + 12 + Z.of_nat (length payload)).
Proof.
  intros Htag Hsize Hmalloc.
  rewrite ReadChunk_encoded by assumption.
  rewrite length_encode_chunk, Htag. unfold chunk_of. f_equal. lia.
Qed.

(** X5.  When [malloc] refuses the declared length, [ReadChunk] fails
    with the allocation message whatever the payload and the checksum
    are, with the cursor moved past the length and the type only, and the
    loop of [main] returns that failure. *)
Theorem ReadChunk_fails_when_malloc_fails (buffer : memory) (cursor : Z) :
  malloc_ok (wire_length buffer cursor) = false ->
  ReadChunk buffer cursor IsLittleEndian = (Err CantAllocateChunkData, u32 (cursor + 8))
  /\ forall fuel chunkDynamicArray chunkArraySize,
       main_loop (S fuel) buffer cursor chunkDynamicArray chunkArraySize IsLittleEndian
       = Some (Err CantAllocateChunkData).
Proof.
  intros Hmalloc.
  assert (HR : ReadChunk buffer cursor IsLittleEndian
               = (Err CantAllocateChunkData, u32 (cursor + 8)))
    by (rewrite ReadChunk_spec, Hmalloc; reflexivity).
  split; [exact HR|]. intros fuel arr n. cbn [main_loop]. rewrite HR. reflexivity.
Qed.

(** X6.  A checksum failure does not put the cursor back: when the
    payload could be allocated, [ReadChunk] leaves the cursor 12 + the
    declared length further (modulo 2^32), whether it returns 0 or fails
    on the checksum. *)
Theorem ReadChunk_moves_cursor_past_record (buffer : memory) (cursor : Z) :
  malloc_ok (wire_length buffer cursor) = true ->
  snd (ReadChunk buffer cursor IsLittleEndian)
  = u32 (cursor + 12 + wire_length buffer cursor).
Proof.
  intros Hmalloc. rewrite ReadChunk_spec, Hmalloc. cbn [negb].
  destruct (negb _); reflexivity.
Qed.

(** What a successful [ReadChunk] has found at the cursor. *)
Lemma ReadChunk_ok_inv (buffer : memory) (cursor cursor' : Z) (chunk : Chunk) :
  ReadChunk buffer cursor IsLittleEndian = (Ok chunk, cursor') ->
  well_formed_chunk chunk
  /\ 0 <= dataLength chunk < 2 ^ 32
  /\ chunk = mkChunk (wire_length buffer cursor) (wire_type buffer cursor ++ [x00])
                     (wire_payload buffer cursor)
  /\ wire_crc buffer cursor
     = chunk_crc crc32 (wire_type buffer cursor) (wire_payload buffer cursor).
Proof.
  rewrite ReadChunk_spec.
  destruct (malloc_ok (wire_length buffer cursor)); cbn [negb]; [|discriminate].
  destruct (Z.eqb_spec (wire_crc buffer cursor)
              (chunk_crc crc32 (wire_type buffer cursor) (wire_payload buffer cursor)))
    as [Hcrc|_]; cbn [negb]; [|discriminate].
  intros H. injection H as <- _.
  pose proof (be32_range (memcpy_from buffer cursor 4)) as Hlen.
  fold (wire_length buffer cursor) in Hlen.
  split; [|split; [exact Hlen|split; [reflexivity|exact Hcrc]]].
  split; [reflexivity|]. split; [reflexivity|]. cbn [data dataLength].
  unfold wire_payload. rewrite length_memcpy_from. lia.
Qed.

(** X7.  Every chunk that [ReadChunk] returns is well formed: its type
    array has five characters, the last one NUL, its [dataLength] fits 32
    bits and [data] holds exactly [dataLength] bytes; it is the record
    found at the cursor, and the checksum field of that record matched. *)
Theorem ReadChunk_returns_well_formed_chunk
        (buffer : memory) (cursor cursor' : Z) (chunk : Chunk) :
  ReadChunk buffer cursor IsLittleEndian = (Ok chunk, cursor') ->
  well_formed_chunk chunk
  /\ 0 <= dataLength chunk < 2 ^ 32
  /\ chunk = mkChunk (wire_length buffer cursor) (wire_type buffer cursor ++ [x00])
                     (wire_payload buffer cursor)
  /\ wire_crc buffer cursor
     = chunk_crc crc32 (wire_type buffer cursor) (wire_payload buffer cursor).
Proof. apply ReadChunk_ok_inv. Qed.

Lemma strcmp_LAST_CHUNK_TYPE (t : list byte) :
  length t = 5%nat ->
  (strcmp t LAST_CHUNK_TYPE_SIGNATURE = 0 <-> t = LAST_CHUNK_TYPE_SIGNATURE).
Proof.
  intros Hlen. apply (strcmp_zero IEND_tag tag_has_no_NUL_IEND). exact Hlen.
Qed.

(** The loop of [main] keeps: the counter is the number of chunks in the
    array, all of them well formed and none of them an [IEND] chunk,
    until the round that returns. *)
Lemma main_loop_invariant (buffer : memory) (fuel : nat) :
  forall cursor arr arr' n' cursor',
    Z.of_nat (length arr) + Z.of_nat fuel < 2 ^ 32 ->
    main_loop fuel buffer cursor arr (Z.of_nat (length arr)) IsLittleEndian
    = Some (Ok (arr', n', cursor')) ->
    exists before last,
      arr' = arr ++ before ++ [last]
      /\ Forall (fun c => well_formed_chunk c /\ type c <> LAST_CHUNK_TYPE_SIGNATURE) before
      /\ well_formed_chunk last
      /\ type last = LAST_CHUNK_TYPE_SIGNATURE
      /\ n' = Z.of_nat (length arr').
Proof.
  induction fuel as [|fuel IH]; intros cursor arr arr' n' cursor' Hcount; [discriminate|].
  cbn [main_loop].
  destruct (ReadChunk buffer cursor IsLittleEndian) as [[chunk|e] c1] eqn:HR;
    [|discriminate].
  pose proof (proj1 (ReadChunk_ok_inv buffer cursor c1 chunk HR)) as Hwf.
  rewrite (u32_small (Z.of_nat (length arr) + 1)) by lia.
  unfold AppendChunk.
  destruct (malloc_ok ((Z.of_nat (length arr) + 1) * sizeof_Chunk)); cbn [negb];
    [|discriminate].
  replace (Z.to_nat (Z.of_nat (length arr) + 1 - 1)) with (length arr) by lia.
  rewrite firstn_all.
  pose proof (strcmp_LAST_CHUNK_TYPE (type chunk) (proj1 Hwf)) as Hcmp.
  destruct (Z.eqb_spec (strcmp (type chunk) LAST_CHUNK_TYPE_SIGNATURE) 0) as [E|E].
  - intros H. injection H as <- <- _.
    exists [], chunk. cbn [app].
    split; [reflexivity|]. split; [constructor|]. split; [exact Hwf|].
    split; [apply Hcmp; exact E|].
    rewrite length_app. cbn [length]. lia.
  - replace (Z.of_nat (length arr) + 1) with (Z.of_nat (length (arr ++ [chunk])))
      by (rewrite length_app; cbn [length]; lia).
    intros H. apply IH in H; [|rewrite length_app; cbn [length]; lia].
    destruct H as (before & last & -> & Hbefore & Hlast & Htype & Hn).
    exists (chunk :: before), last. rewrite <- app_assoc. cbn [app].
    split; [reflexivity|]. split.
    + constructor; [|exact Hbefore]. split; [exact Hwf|].
      intros Heq. apply E. apply Hcmp. exact Heq.
    + split; [exact Hlast|]. split; [exact Htype|].
      rewrite Hn, <- app_assoc. reflexivity.
Qed.

(** X8.  Whatever the file and the memory after it hold, when the walk
    of [main] leaves its loop the array ends with a chunk whose type is
    IEND and holds no other chunk of that type, every chunk in it is
    well formed, and [chunkArraySize] is the number of chunks in it (the
    walk is at most 2^32 - 1 rounds long). *)
Theorem walk_ends_at_first_IEND
        (fuel : nat) (file : option (list byte)) (beyond : memory)
        (chunkDynamicArray : list Chunk) (chunkArraySize cursor : Z) :
  Z.of_nat fuel < 2 ^ 32 ->
  main_read_chunks fuel file beyond
  = Some (Ok (chunkDynamicArray, chunkArraySize, cursor)) ->
  exists before last,
    chunkDynamicArray = before ++ [last]
    /\ Forall (fun c => well_formed_chunk c /\ type c <> LAST_CHUNK_TYPE_SIGNATURE) before
    /\ well_formed_chunk last
    /\ type last = LAST_CHUNK_TYPE_SIGNATURE
    /\ chunkArraySize = Z.of_nat (length chunkDynamicArray).
Proof.
  intros Hfuel. unfold main_read_chunks.
  destruct (GetFileSize file =? -1); [discriminate|].
  destruct (malloc_ok (GetFileSize file)); cbn [negb]; [|discriminate].
  destruct (FillBuffer file beyond (GetFileSize file)) as [[buffer c0]|e]; [|discriminate].
  intros H. change 0 with (Z.of_nat (length (@nil Chunk))) in H.
  apply main_loop_invariant in H; [|cbn [length]; lia].
  exact H.
Qed.

(** X9.  [AppendChunk] with a size of at least 1 and at most one more
    than the array has: on success the array has [arraySize] elements,
    the last of them is the chunk and the ones before it are the elements
    the array had there; it fails, with the reallocation message, exactly
    when the allocator refuses [arraySize * sizeof(Chunk)] bytes. *)
Theorem AppendChunk_stores_chunk_last
        (chunkDynamicArray : list Chunk) (arraySize : Z) (chunk : Chunk) :
  1 <= arraySize <= Z.of_nat (length chunkDynamicArray) + 1 ->
  match AppendChunk chunkDynamicArray arraySize chunk with
  | Ok chunkDynamicArray' =>
      malloc_ok (arraySize * sizeof_Chunk) = true
      /\ Z.of_nat (length chunkDynamicArray') = arraySize
      /\ nth_error chunkDynamicArray' (Z.to_nat (arraySize - 1)) = Some chunk
      /\ forall i, (i < Z.to_nat (arraySize - 1))%nat ->
                   nth_error chunkDynamicArray' i = nth_error chunkDynamicArray i
  | Err e =>
      malloc_ok (arraySize * sizeof_Chunk) = false /\ e = CantReallocateChunkArray
  end.
Proof.
  intros Hsize. unfold AppendChunk.
  destruct (malloc_ok (arraySize * sizeof_Chunk)); cbn [negb]; [|split; reflexivity].
  assert (Hlen : length (firstn (Z.to_nat (arraySize - 1)) chunkDynamicArray)
                 = Z.to_nat (arraySize - 1))
    by (rewrite length_firstn; lia).
  split; [reflexivity|]. split; [|split].
  - rewrite length_app, Hlen. cbn [length]. lia.
  - rewrite nth_error_app2 by (rewrite Hlen; apply Nat.le_refl).
    rewrite Hlen, Nat.sub_diag. reflexivity.
  - intros i Hi. rewrite nth_error_app1 by (rewrite Hlen; exact Hi).
    rewrite nth_error_firstn. apply Nat.ltb_lt in Hi. rewrite Hi. reflexivity.
Qed.

(** X10.  A record whose checksum field is wrong makes the whole walk
    fail, wherever it stands before the [IEND] chunk: from a file made of
    the signature, sound chunks other than [IEND] and then such a record,
    [main] gets the checksum failure of that record and none of the
    chunks read before it. *)
Theorem corrupt_record_fails_whole_walk
        (cs : list (list byte * list byte)) (tag payload rest : list byte) (stored : Z)
        (beyond : memory) (fuel : nat) :
  Forall (fun c => length (fst c) = 4%nat /\ fst c <> IEND_tag) cs ->
  length tag = 4%nat -> fits32 stored ->
  stored <> chunk_crc crc32 tag payload ->
  Z.of_nat (length (pngSignature ++ encode_chunks cs
                    ++ chunk_record tag payload stored ++ rest)) < 2 ^ 31 ->
  (forall n, malloc_ok n = true) ->
  (length cs < fuel)%nat ->
  main_read_chunks fuel
    (Some (pngSignature ++ encode_chunks cs ++ chunk_record tag payload stored ++ rest))
    beyond
  = Some (Err (ChecksumFailed stored (chunk_crc crc32 tag payload))).
Proof. apply parse_stops_at_corrupt_record. Qed.

End Reader.

(** The chunk reader gives the same result on a little-endian and on a
    big-endian host. *)
Lemma ReadChunk_host_independent (malloc_ok : Z -> bool) (crc32 : Z -> list byte -> Z)
      (buffer : memory) (cursor : Z) :
  ReadChunk true malloc_ok crc32 buffer cursor (IsLittleEndian true)
  = ReadChunk false malloc_ok crc32 buffer cursor (IsLittleEndian false).
Proof. rewrite !ReadChunk_spec. reflexivity. Qed.

(** X11.  The byte order of the host makes no difference to the walk:
    with the flag that [IsLittleEndian] computes, [main] gets the same
    chunks, counter and cursor, or the same failure, from the same file
    on a little-endian and on a big-endian host. *)
Theorem walk_is_host_independent
        (sizeof_Chunk : Z) (malloc_ok : Z -> bool) (crc32 : Z -> list byte -> Z)
        (fuel : nat) (file : option (list byte)) (beyond : memory) :
  main_read_chunks true sizeof_Chunk malloc_ok crc32 fuel file beyond
  = main_read_chunks false sizeof_Chunk malloc_ok crc32 fuel file beyond.
Proof.
  unfold main_read_chunks.
  destruct (GetFileSize file =? -1); [reflexivity|].
  destruct (negb (malloc_ok (GetFileSize file))); [reflexivity|].
  destruct (FillBuffer file beyond (GetFileSize file)) as [[buffer cursor]|e];
    [|reflexivity].
  generalize (@nil Chunk) 0 cursor.
  induction fuel as [|fuel IH]; intros arr n c; [reflexivity|].
  cbn [main_loop]. rewrite ReadChunk_host_independent.
  destruct (ReadChunk false malloc_ok crc32 buffer c (IsLittleEndian false))
    as [[chunk|e] c']; [|reflexivity].
  destruct (AppendChunk sizeof_Chunk malloc_ok arr (u32 (n + 1)) chunk); [|reflexivity].
  destruct (strcmp (type chunk) LAST_CHUNK_TYPE_SIGNATURE =? 0); [reflexivity|].
  apply IH.
Qed.

(** X12.  [FillBuffer] on a file that is not empty compares the eight
    bytes at the buffer with the signature, whatever the size of the
    file: of a file shorter than eight bytes it compares the bytes of the
    file followed by what the memory after the buffer holds.  When they
    are the signature it returns 0 with the cursor at 8, otherwise it
    fails with the signature message. *)
Theorem FillBuffer_compares_eight_bytes (bytes : list byte) (beyond : memory) :
  bytes <> [] ->
  FillBuffer (Some bytes) beyond (Z.of_nat (length bytes))
  = if list_eq_dec Byte.byte_eq_dec
         (memcpy_from (buffer_memory bytes beyond) 0 8) pngSignature
    then Ok (buffer_memory bytes beyond, 8)
    else Err InvalidPngSignature.
Proof.
  intros Hne. unfold FillBuffer. rewrite fread_s_whole.
  destruct (Z.leb_spec (Z.of_nat (length bytes)) 0) as [H|_].
  { destruct bytes; [contradiction|cbn [length] in H; lia]. }
  unfold PNG_SIGNATURE_LENGTH.
  assert (Hcmp : memcmp pngSignature (memcpy_from (buffer_memory bytes beyond) 0 8) = 0
                 <-> memcpy_from (buffer_memory bytes beyond) 0 8 = pngSignature).
  { rewrite memcmp_zero by (rewrite length_memcpy_from; reflexivity).
    split; intros Heq; symmetry; exact Heq. }
  destruct (list_eq_dec Byte.byte_eq_dec
              (memcpy_from (buffer_memory bytes beyond) 0 8) pngSignature) as [E|E];
    destruct (Z.eqb_spec (memcmp pngSignature
                            (memcpy_from (buffer_memory bytes beyond) 0 8)) 0) as [E'|E'];
    try reflexivity.
  - apply Hcmp in E. contradiction.
  - apply Hcmp in E'. contradiction.
Qed.

(** ** More on the header validator *)

Lemma be32_positive (bs : list byte) : 0 < le32 bs -> 0 < be32 bs.
Proof.
  destruct bs as [|b0 [|b1 [|b2 [|b3 [|? ?]]]]]; cbn [be32 le32]; try lia.
  pose proof (byte_val_range b0). pose proof (byte_val_range b1).
  pose proof (byte_val_range b2). pose proof (byte_val_range b3). lia.
Qed.

Lemma length_slice (block : list byte) (off n : Z) :
  0 <= off -> 0 <= n -> off + n <= Z.of_nat (length block) ->
  length (slice block off n) = Z.to_nat n.
Proof.
  intros Hoff Hn Hlen. unfold slice. rewrite length_firstn, length_skipn. lia.
Qed.

(** A one-byte store into a four-byte field, low byte first, gives a
    value below 256 only if the field held one, and then the value is the
    byte. *)
Lemma store_first_byte_small (old : Z) (b : byte) :
  0 <= store_first_byte true old b < 256 ->
  store_first_byte true old b = byte_val b /\ old / 256 = 0.
Proof.
  unfold store_first_byte. change (2 ^ 8) with 256.
  pose proof (byte_val_range b). intros H'.
  Z.div_mod_to_equations. lia.
Qed.

(** The same store, high byte first, gives a value below 2^24 only if the
    byte is zero. *)
Lemma store_first_byte_high (old : Z) (b : byte) :
  0 <= store_first_byte false old b < 2 ^ 24 -> byte_val b = 0.
Proof.
  unfold store_first_byte.
  pose proof (byte_val_range b). pose proof (Z.mod_pos_bound old (2 ^ 24) eq_refl).
  intros H'. lia.
Qed.

Lemma bitDepth_valid_small (d : Z) : bitDepth_invalid d = false -> 0 < d < 256.
Proof.
  unfold bitDepth_invalid. intros H.
  destruct (Z.eqb_spec d 1), (Z.eqb_spec d 2), (Z.eqb_spec d 4), (Z.eqb_spec d 8),
    (Z.eqb_spec d 16); cbn in H; try discriminate; lia.
Qed.

Lemma colorType_valid_small (c : Z) : colorType_invalid c = false -> 0 <= c < 256.
Proof.
  unfold colorType_invalid, GRAYSCALE, TRUECOLOR, INDEXED_COLOR, GRAYSCALE_WITH_ALPHA,
    TRUECOLOR_WITH_ALPHA. intros H.
  destruct (Z.eqb_spec c 0), (Z.eqb_spec c 2), (Z.eqb_spec c 3), (Z.eqb_spec c 4),
    (Z.eqb_spec c 6); cbn in H; try discriminate; lia.
Qed.

(** The validator with its offsets worked out. *)
Lemma GetIhdrChunkData_offsets (host_le : bool) (chunk : Chunk) (ihdr : Ihdr)
      (isLittleEndian : bool) :
  GetIhdrChunkData host_le chunk ihdr isLittleEndian
  = (do _ <- guard (dataLength chunk <? 13) IhdrTooShort;
     do _ <- guard (load_uint host_le (slice (data chunk) 0 4) <=? 0) IhdrWidthZero;
     do _ <- guard (load_uint host_le (slice (data chunk) 4 4) <=? 0) IhdrHeightZero;
     do _ <- guard (bitDepth_invalid
                      (store_first_byte host_le (bitDepth ihdr) (nth 8 (data chunk) x00)))
                   IhdrInvalidBitDepth;
     do _ <- guard (colorType_invalid
                      (store_first_byte host_le (colorType ihdr) (nth 9 (data chunk) x00)))
                   IhdrInvalidColorType;
     do _ <- guard (pair_invalid
                      (store_first_byte host_le (colorType ihdr) (nth 9 (data chunk) x00))
                      (store_first_byte host_le (bitDepth ihdr) (nth 8 (data chunk) x00)))
                   IhdrInvalidPair;
     do _ <- guard (negb (byte_val (nth 10 (data chunk) x00) =? 0)) IhdrCompressionMethod;
     do _ <- guard (negb (byte_val (nth 11 (data chunk) x00) =? 0)) IhdrFilterMethod;
     do _ <- guard (negb (byte_val (nth 12 (data chunk) x00) =? 0)
                    && negb (byte_val (nth 12 (data chunk) x00) =? 1)) IhdrInterlaceMethod;
     Ok (mkIhdr
           (if isLittleEndian then ToLittleEndian (load_uint host_le (slice (data chunk) 0 4))
            else load_uint host_le (slice (data chunk) 0 4))
           (if isLittleEndian then ToLittleEndian (load_uint host_le (slice (data chunk) 4 4))
            else load_uint host_le (slice (data chunk) 4 4))
           (store_first_byte host_le (bitDepth ihdr) (nth 8 (data chunk) x00))
           (store_first_byte host_le (colorType ihdr) (nth 9 (data chunk) x00))
           (nth 10 (data chunk) x00) (nth 11 (data chunk) x00) (nth 12 (data chunk) x00))).
Proof. reflexivity. Qed.

Ltac pass_guard H :=
  match type of H with
  | bind (guard ?b ?e) _ = Ok _ =>
      let E := fresh "G" in
      destruct b eqn:E; cbn [guard bind] in H; [discriminate H|]
  end.

(** X13.  What the validator accepts, on a little-endian host and
    whatever the caller's structure held: a payload of at least 13 bytes,
    positive width and height, a bit depth and a colour type that the
    table allows together, compression and filter method 0 and interlace
    method 0 or 1; the structure then holds these values, width and
    height as the big-endian numbers of the payload.  Acceptance also
    means that the upper three bytes of the caller's [bitDepth] and
    [colorType] fields were zero. *)
Theorem GetIhdrChunkData_accepts_only_the_table (chunk : Chunk) (ihdr ihdr' : Ihdr) :
  Z.of_nat (length (data chunk)) = dataLength chunk ->
  GetIhdrChunkData true chunk ihdr (IsLittleEndian true) = Ok ihdr' ->
  13 <= dataLength chunk
  /\ width ihdr' = be32 (slice (data chunk) 0 4) /\ 0 < width ihdr'
  /\ height ihdr' = be32 (slice (data chunk) 4 4) /\ 0 < height ihdr'
  /\ bitDepth ihdr' = byte_val (nth 8 (data chunk) x00)
  /\ colorType ihdr' = byte_val (nth 9 (data chunk) x00)
  /\ legal_pair (bitDepth ihdr') (colorType ihdr') = true
  /\ byte_val (compressionMethod ihdr') = 0 /\ byte_val (filterMethod ihdr') = 0
  /\ (byte_val (interlaceMethod ihdr') = 0 \/ byte_val (interlaceMethod ihdr') = 1)
  /\ bitDepth ihdr / 256 = 0 /\ colorType ihdr / 256 = 0.
Proof.
  intros Hdata H. rewrite GetIhdrChunkData_offsets in H.
  unfold IsLittleEndian, load_uint in H.
  do 9 pass_guard H.
  destruct ihdr' as [w' h' d' c' cm' fm' im'].
  injection H as Hw Hh Hd Hc Hcm Hfm Him.
  cbn [width height bitDepth colorType compressionMethod filterMethod interlaceMethod].
  apply Z.ltb_ge in G.
  apply Z.leb_gt in G0, G1.
  rewrite ToLittleEndian_le32 in Hw, Hh by (apply length_slice; lia).
  pose proof (bitDepth_valid_small _ G2) as Hd'.
  pose proof (colorType_valid_small _ G3) as Hc'.
  destruct (store_first_byte_small (bitDepth ihdr) (nth 8 (data chunk) x00)) as [Ed Ed'];
    [lia|].
  destruct (store_first_byte_small (colorType ihdr) (nth 9 (data chunk) x00)) as [Ec Ec'];
    [lia|].
  pose proof (header_checks_are_the_table
                (store_first_byte true (bitDepth ihdr) (nth 8 (data chunk) x00))
                (store_first_byte true (colorType ihdr) (nth 9 (data chunk) x00)))
    as Htable.
  rewrite G2, G3, G4 in Htable. cbn [orb] in Htable.
  apply (f_equal negb) in Htable. rewrite negb_involutive in Htable. cbn [negb] in Htable.
  apply negb_false_iff, Z.eqb_eq in G5, G6.
  apply andb_false_iff in G7.
  subst w' h' d' c' cm' fm' im'.
  repeat split; try assumption; try (apply be32_positive; assumption);
    try (symmetry; assumption).
  destruct G7 as [G7|G7]; apply negb_false_iff, Z.eqb_eq in G7; [left|right]; exact G7.
Qed.

(** X14.  On a little-endian host, when the upper three bytes of the two
    wide fields are zero before the call, a header with positive
    dimensions, compression and filter method 0 and interlace method 0 or
    1 is judged by the table of the PNG format alone: accepted, with the
    fields of the payload, when bit depth and colour type are a legal pair,
    and refused with the message of the first check that fails
    otherwise. *)
Theorem GetIhdrChunkData_judges_by_the_table
        (w h len : Z) (d c im : byte) (tag extra : list byte) (ihdr : Ihdr) :
  0 < w < 2 ^ 32 -> 0 < h < 2 ^ 32 ->
  byte_val im = 0 \/ byte_val im = 1 ->
  13 <= len ->
  0 <= bitDepth ihdr < 256 -> 0 <= colorType ihdr < 256 ->
  GetIhdrChunkData true
    (mkChunk len tag (be32_bytes w ++ be32_bytes h ++ [d; c; x00; x00; im] ++ extra))
    ihdr (IsLittleEndian true)
  = if bitDepth_invalid (byte_val d) then Err IhdrInvalidBitDepth
    else if colorType_invalid (byte_val c) then Err IhdrInvalidColorType
    else if legal_pair (byte_val d) (byte_val c)
         then Ok (mkIhdr w h (byte_val d) (byte_val c) x00 x00 im)
         else Err IhdrInvalidPair.
Proof. apply GetIhdrChunkData_on_clean_fields. Qed.

(** X15.  On a big-endian host the validator accepts no header whose
    bit depth byte is not zero, whatever the caller's structure held: the
    byte lands in the most significant byte of the field that is compared
    with 1, 2, 4, 8 and 16.  So every header with a legal bit depth is
    refused there. *)
Theorem GetIhdrChunkData_refuses_on_big_endian_host (chunk : Chunk) (ihdr : Ihdr) :
  nth 8 (data chunk) x00 <> x00 ->
  exists e, GetIhdrChunkData false chunk ihdr (IsLittleEndian false) = Err e
            /\ (e = IhdrTooShort \/ e = IhdrWidthZero \/ e = IhdrHeightZero
                \/ e = IhdrInvalidBitDepth).
Proof.
  intros Hbyte. rewrite GetIhdrChunkData_offsets.
  destruct (dataLength chunk <? 13); cbn [guard bind]; [eexists; split; [reflexivity|tauto]|].
  destruct (load_uint false (slice (data chunk) 0 4) <=? 0); cbn [guard bind];
    [eexists; split; [reflexivity|tauto]|].
  destruct (load_uint false (slice (data chunk) 4 4) <=? 0); cbn [guard bind];
    [eexists; split; [reflexivity|tauto]|].
  destruct (bitDepth_invalid (store_first_byte false (bitDepth ihdr)
                                               (nth 8 (data chunk) x00))) eqn:G;
    cbn [guard bind]; [eexists; split; [reflexivity|tauto]|].
  exfalso. apply Hbyte. apply byte_val_inj. change (byte_val x00) with 0.
  apply (store_first_byte_high (bitDepth ihdr)).
  pose proof (bitDepth_valid_small _ G). lia.
Qed.

(** ** More on the inflater *)

Lemma strcmp_DATA_CHUNK_TYPE (t : list byte) :
  length t = 5%nat ->
  (strcmp t DATA_CHUNK_TYPE = 0 <-> t = DATA_CHUNK_TYPE).
Proof.
  intros Hlen. apply (strcmp_zero IDAT_tag tag_has_no_NUL_IDAT). exact Hlen.
Qed.

Lemma idat_total_nonneg (chunks : list Chunk) :
  Forall well_formed_chunk chunks -> 0 <= idat_total chunks.
Proof.
  induction 1 as [|c chunks (_ & _ & Hc) _ IH]; cbn [idat_total]; [lia|].
  destruct (list_eq_dec Byte.byte_eq_dec (type c) DATA_CHUNK_TYPE); lia.
Qed.

(** [compressedSize] after the loop: what it was plus the lengths of the
    image-data chunks. *)
Lemma idat_loop_size (ULONG_MAX : Z) (chunks : list Chunk) :
  forall (source : memory) (index size : Z),
    Forall well_formed_chunk chunks ->
    0 <= size -> size + idat_total chunks <= ULONG_MAX ->
    snd (idat_loop ULONG_MAX chunks source index size) = size + idat_total chunks.
Proof.
  induction chunks as [|c chunks IH]; intros source index size Hwf Hsize Hmax.
  - cbn [idat_loop idat_total snd]. lia.
  - inversion Hwf as [|? ? Hc Hrest]; subst.
    pose proof (idat_total_nonneg chunks Hrest) as Hpos.
    destruct Hc as (Hlen & _ & Hdata).
    pose proof (strcmp_DATA_CHUNK_TYPE (type c) Hlen) as Hcmp.
    cbn [idat_loop idat_total] in *.
    destruct (list_eq_dec Byte.byte_eq_dec (type c) DATA_CHUNK_TYPE) as [E|E];
      destruct (Z.eqb_spec (strcmp (type c) DATA_CHUNK_TYPE) 0) as [E'|E'];
      try (exfalso; tauto).
    + rewrite IH; try assumption.
      * unfold ulong. rewrite Z.mod_small by lia. lia.
      * unfold ulong. rewrite Z.mod_small by lia. lia.
      * unfold ulong. rewrite Z.mod_small by lia. lia.
    + apply IH; assumption.
Qed.

(** X16.  The length handed to [uncompress] as [sourceLen] is the total
    of the [dataLength]s of the image-data chunks of the array, however
    many there are, as long as that total is at most [ULONG_MAX]. *)
Theorem sourceLen_is_total_of_IDAT_lengths
        (ULONG_MAX : Z) (fresh : memory) (chunkDynamicArray : list Chunk) :
  Forall well_formed_chunk chunkDynamicArray ->
  idat_total chunkDynamicArray <= ULONG_MAX ->
  Z.of_nat (length (compressed_input ULONG_MAX fresh chunkDynamicArray
                        (Z.of_nat (length chunkDynamicArray))))
  = idat_total chunkDynamicArray.
Proof.
  intros Hwf Hmax. unfold compressed_input.
  rewrite Nat2Z.id, firstn_all.
  pose proof (idat_loop_size ULONG_MAX chunkDynamicArray fresh 0 0 Hwf (Z.le_refl 0) Hmax)
    as Hsize.
  destruct (idat_loop ULONG_MAX chunkDynamicArray fresh 0 0) as [[source index] size].
  cbn [snd] in Hsize. subst size.
  rewrite length_memcpy_from.
  pose proof (idat_total_nonneg chunkDynamicArray Hwf). lia.
Qed.

Section InflaterInput.

Variable ULONG_MAX : Z.
Variable malloc_ok : Z -> bool.
Variable malloc_again_ok : Z -> bool.
Variable fresh : memory.
Variable uncompress : Z -> list byte -> Z * list byte.

Local Abbreviation DecompressIdatChuncks :=
  (DecompressIdatChuncks ULONG_MAX malloc_ok malloc_again_ok fresh uncompress).

(** X17.  When exactly one chunk of the array is an image-data chunk
    and its payload is not empty, and the first [malloc] succeeds: if the
    second [malloc] fails, [DecompressIdatChuncks] fails with the message
    for the uncompressed destination; otherwise [uncompress] is called on
    the payload of that chunk, and the function returns 0 with the
    length that [uncompress] reports when [uncompress] returns [Z_OK],
    and fails with the decompression message when it does not. *)
Theorem single_IDAT_payload_reaches_uncompress
        (pre post : list Chunk) (payload : list byte)
        (uncompressedDestination : memory) (uncompressedSize : Z) :
  Forall not_image_data pre -> Forall not_image_data post ->
  payload <> [] ->
  Z.of_nat (length payload) <= ULONG_MAX ->
  malloc_ok ULONG_MAX = true ->
  DecompressIdatChuncks (pre ++ chunk_of IDAT_tag payload :: post)
                        (Z.of_nat (length (pre ++ chunk_of IDAT_tag payload :: post)))
                        uncompressedDestination uncompressedSize
  = (if negb (malloc_again_ok ULONG_MAX) then Err CantAllocateUncompressedDestination
     else if fst (uncompress uncompressedSize payload) =? Z_OK
          then Ok (Z.of_nat (length (snd (uncompress uncompressedSize payload))),
                   memcpy_to fresh 0 (snd (uncompress uncompressedSize payload)))
          else Err CannotDecompress).
Proof.
  intros Hpre Hpost Hne Hlen Hmalloc. unfold DecompressIdatChuncks.
  rewrite Hmalloc. cbn [negb guard bind].
  rewrite (compressed_input_of_one_idat ULONG_MAX fresh pre post payload Hpre Hpost Hlen).
  rewrite (compressed_size_of_one_idat ULONG_MAX fresh pre post payload Hpre Hpost Hlen).
  destruct (Z.eqb_spec (Z.of_nat (length payload)) 0) as [E|_].
  { destruct payload; [contradiction | cbn [length] in E; lia]. }
  cbn [guard bind].
  destruct (malloc_again_ok ULONG_MAX); cbn [negb guard bind]; [|reflexivity].
  destruct (uncompress uncompressedSize payload) as [code written]. cbn [fst snd].
  destruct (code =? Z_OK); reflexivity.
Qed.

End InflaterInput.

(** ** The printing loop *)

Lemma strided_cons (i stride : Z) (n : nat) :
  strided i stride (S n) = i :: strided (i + stride) stride n.
Proof.
  unfold strided. cbn [seq map]. f_equal; [lia|].
  rewrite <- seq_shift, map_map. apply map_ext. intros k. lia.
Qed.

Section Printing.

Variable ULONG_MAX : Z.

Local Abbreviation print_loop := (print_loop ULONG_MAX).

(** X18.  A width whose fourfold is a multiple of 2^32 (2^30 is one)
    makes the step of the last loop of [main] zero: once the loop prints
    at all, at an index that is not negative, it never ends. *)
Theorem print_loop_never_ends_on_zero_step
        (uncompressedDestination : memory) (uncompressedSize width i : Z) (fuel : nat) :
  u32 (width * 4) = 0 ->
  0 <= i < 2 ^ 31 ->
  ulong ULONG_MAX i < uncompressedSize ->
  print_loop fuel uncompressedDestination uncompressedSize width i = None.
Proof.
  intros Hstep Hi Hlt. induction fuel as [|fuel IH]; [reflexivity|].
  cbn [print_loop]. rewrite Hstep.
  destruct (Z.ltb_spec (ulong ULONG_MAX i) uncompressedSize) as [_|H]; [|lia].
  replace (int_of_u32 (u32 (i + 0))) with i; [rewrite IH; reflexivity|].
  rewrite Z.add_0_r, u32_small by lia. unfold int_of_u32.
  destruct (Z.ltb_spec i (2 ^ 31)); [reflexivity|lia].
Qed.

Lemma print_loop_steps (uncompressedDestination : memory) (uncompressedSize width : Z)
      (n : nat) :
  forall (i : Z) (fuel : nat),
    0 < u32 (width * 4) ->
    2 ^ 31 <= ULONG_MAX + 1 ->
    uncompressedSize + u32 (width * 4) <= 2 ^ 31 ->
    0 <= i ->
    uncompressedSize <= i + Z.of_nat n * u32 (width * 4)
                     < uncompressedSize + u32 (width * 4) ->
    (n < fuel)%nat ->
    print_loop fuel uncompressedDestination uncompressedSize width i
    = Some (map uncompressedDestination (strided i (u32 (width * 4)) n)).
Proof.
  induction n as [|n IH]; intros i fuel Hstep Hlong Hsize Hi Hn Hfuel;
    (destruct fuel as [|fuel]; [lia|]); cbn [print_loop].
  - unfold ulong. rewrite Z.mod_small by lia.
    destruct (Z.ltb_spec i uncompressedSize); [lia|reflexivity].
  - unfold ulong. rewrite Z.mod_small by lia.
    destruct (Z.ltb_spec i uncompressedSize); [|nia].
    replace (int_of_u32 (u32 (i + u32 (width * 4)))) with (i + u32 (width * 4)).
    + rewrite (IH (i + u32 (width * 4)) fuel) by (try assumption; lia).
      rewrite strided_cons. reflexivity.
    + rewrite (u32_small (i + u32 (width * 4))) by lia. unfold int_of_u32.
      destruct (Z.ltb_spec (i + u32 (width * 4)) (2 ^ 31)); [reflexivity|lia].
Qed.

(** X19.  With a step [width * 4] that is not zero modulo 2^32 and a
    size that leaves the index within [int], the last loop of [main]
    ends and prints the bytes at offsets 0, step, 2 * step, ... below
    the size, one for every step-sized stretch of the output begun. *)
Theorem print_loop_prints_every_stride
        (uncompressedDestination : memory) (uncompressedSize width : Z) (fuel : nat) :
  let step := u32 (width * 4) in
  let count := Z.to_nat ((uncompressedSize + step - 1) / step) in
  0 < step ->
  2 ^ 31 <= ULONG_MAX + 1 ->
  0 <= uncompressedSize -> uncompressedSize + step <= 2 ^ 31 ->
  (count < fuel)%nat ->
  print_loop fuel uncompressedDestination uncompressedSize width 0
  = Some (map uncompressedDestination (strided 0 step count)).
Proof.
  intros step count Hstep Hlong Hpos Hsize Hfuel.
  apply print_loop_steps; try assumption; try lia.
  unfold count. fold step.
  rewrite Z2Nat.id by (apply Z.div_pos; lia).
  pose proof (Z.div_mod (uncompressedSize + step - 1) step ltac:(lia)) as Hdiv.
  pose proof (Z.mod_pos_bound (uncompressedSize + step - 1) step Hstep) as Hmod.
  lia.
Qed.

End Printing.

(** ** More on the program *)

(** The input of [uncompress] is the same for two arrays that differ in
    a first chunk that is not an image-data chunk. *)
Lemma compressed_input_skips_first (ULONG_MAX : Z) (fresh : memory)
      (c c' : Chunk) (rest : list Chunk) (n : Z) :
  not_image_data c -> not_image_data c' ->
  compressed_input ULONG_MAX fresh (c :: rest) n
  = compressed_input ULONG_MAX fresh (c' :: rest) n.
Proof.
  intros Hc Hc'. unfold compressed_input.
  destruct (Z.to_nat n) as [|k]; [reflexivity|]. cbn [firstn].
  rewrite (idat_loop_app_skips ULONG_MAX [c] (firstn k rest))
    by (constructor; [exact Hc | constructor]).
  rewrite (idat_loop_app_skips ULONG_MAX [c'] (firstn k rest))
    by (constructor; [exact Hc' | constructor]).
  reflexivity.
Qed.

Lemma compressed_size_skips_first (ULONG_MAX : Z) (fresh : memory)
      (c c' : Chunk) (rest : list Chunk) (n : Z) :
  not_image_data c -> not_image_data c' ->
  compressed_size ULONG_MAX fresh (c :: rest) n
  = compressed_size ULONG_MAX fresh (c' :: rest) n.
Proof.
  intros Hc Hc'. unfold compressed_size.
  destruct (Z.to_nat n) as [|k]; [reflexivity|]. cbn [firstn].
  rewrite (idat_loop_app_skips ULONG_MAX [c] (firstn k rest))
    by (constructor; [exact Hc | constructor]).
  rewrite (idat_loop_app_skips ULONG_MAX [c'] (firstn k rest))
    by (constructor; [exact Hc' | constructor]).
  reflexivity.
Qed.

Lemma not_image_data_chunk_of (tag payload : list byte) :
  length tag = 4%nat -> tag <> IDAT_tag -> not_image_data (chunk_of tag payload).
Proof.
  intros Hlen Hne. split; cbn [chunk_of type].
  - rewrite length_app, Hlen. reflexivity.
  - intros Heq. apply Hne. change DATA_CHUNK_TYPE with (IDAT_tag ++ [x00]) in Heq.
    apply app_inv_tail in Heq. exact Heq.
Qed.

Section WholeProgram.

Variable host_le : bool.
Variable ULONG_MAX : Z.
Variable sizeof_Chunk : Z.
Variable malloc_ok : Z -> bool.
Variable malloc_again_ok : Z -> bool.
Variable fresh : memory.
Variable crc32 : Z -> list byte -> Z.
Variable uncompress : Z -> list byte -> Z * list byte.

Local Abbreviation main_read_chunks :=
  (main_read_chunks host_le sizeof_Chunk malloc_ok crc32).
Local Abbreviation DecompressIdatChuncks :=
  (DecompressIdatChuncks ULONG_MAX malloc_ok malloc_again_ok fresh uncompress).
Local Abbreviation main :=
  (main host_le ULONG_MAX sizeof_Chunk malloc_ok malloc_again_ok fresh crc32 uncompress).
Local Abbreviation encode_chunk := (encode_chunk crc32).
Local Abbreviation encode_chunks := (encode_chunks crc32).

(** The walk from the start of a file of sound chunks closed by an
    [IEND] chunk. *)
Lemma main_read_chunks_walk
      (cs : list (list byte * list byte)) (pe trailing : list byte)
      (beyond : memory) (fuel : nat) :
  Forall (fun c => length (fst c) = 4%nat /\ fst c <> IEND_tag) cs ->
  Z.of_nat (length (pngSignature ++ encode_chunks cs ++ encode_chunk IEND_tag pe
                    ++ trailing)) < 2 ^ 31 ->
  (forall n, malloc_ok n = true) ->
  (length cs < fuel)%nat ->
  main_read_chunks fuel
    (Some (pngSignature ++ encode_chunks cs ++ encode_chunk IEND_tag pe ++ trailing)) beyond
  = Some (Ok (chunks_of cs ++ [chunk_of IEND_tag pe],
              Z.of_nat (length cs) + 1,
              8 + Z.of_nat (length (encode_chunks cs))
              + Z.of_nat (length (encode_chunk IEND_tag pe)))).
Proof.
  intros Hcs Hsize Hmalloc Hfuel.
  rewrite main_read_chunks_checks_signature
    by (try apply Hmalloc; rewrite length_app in Hsize |- *;
        change (length pngSignature) with 8%nat in Hsize |- *; lia).
  match goal with
  | |- context [list_eq_dec Byte.byte_eq_dec ?a ?b] =>
      destruct (list_eq_dec Byte.byte_eq_dec a b) as [_|E];
        [|exfalso; apply E; reflexivity]
  end.
  change 8 with (Z.of_nat (length pngSignature)).
  apply main_loop_walk; try assumption. lia.
Qed.

(** X20.  [DecompressIdatChuncks] asks [malloc] for [ULONG_MAX] bytes
    before it looks at any chunk.  Where that request is refused it fails
    with the allocation message for every array, and [main] returns 0
    for no file at all. *)
Theorem main_needs_ULONG_MAX_bytes :
  malloc_ok ULONG_MAX = false ->
  (forall chunkDynamicArray chunkArraySize uncompressedDestination uncompressedSize,
      DecompressIdatChuncks chunkDynamicArray chunkArraySize uncompressedDestination
                            uncompressedSize
      = Err CantAllocateCompressedSource)
  /\ forall fuel file beyond ihdr uncompressedDestination printed,
       main fuel file beyond ihdr uncompressedDestination <> Some (Ok printed).
Proof.
  intros Hmalloc.
  assert (HD : forall arr n dest size,
             DecompressIdatChuncks arr n dest size = Err CantAllocateCompressedSource).
  { intros arr n dest size. unfold DecompressIdatChuncks. rewrite Hmalloc. reflexivity. }
  split; [exact HD|].
  intros fuel file beyond ihdr dest printed. unfold main.
  destruct (main_read_chunks fuel file beyond) as [[[[arr n] c]|e]|]; try discriminate.
  destruct (GetIhdrChunkData host_le (hd (mkChunk 0 [] []) arr) ihdr
                             (IsLittleEndian host_le)); [|discriminate].
  rewrite HD. discriminate.
Qed.

(** X21.  [main] validates the first chunk of the file as the header
    whatever its type: two files that differ only in the type of their
    first chunk, neither type being IEND or IDAT, give the same run of
    [main]. *)
Theorem first_chunk_is_header_whatever_its_type
        (tag tag' payload : list byte) (cs : list (list byte * list byte))
        (pe trailing : list byte) (beyond : memory) (fuel : nat) (ihdr : Ihdr)
        (uncompressedDestination : memory) :
  let file := fun t => pngSignature ++ encode_chunks ((t, payload) :: cs)
                       ++ encode_chunk IEND_tag pe ++ trailing in
  length tag = 4%nat -> tag <> IEND_tag -> tag <> IDAT_tag ->
  length tag' = 4%nat -> tag' <> IEND_tag -> tag' <> IDAT_tag ->
  Forall (fun c => length (fst c) = 4%nat /\ fst c <> IEND_tag) cs ->
  Z.of_nat (length (file tag)) < 2 ^ 31 ->
  (forall n, malloc_ok n = true) ->
  (S (length cs) < fuel)%nat ->
  main fuel (Some (file tag)) beyond ihdr uncompressedDestination
  = main fuel (Some (file tag')) beyond ihdr uncompressedDestination.
Proof.
  intros file Htag HnE HnD Htag' HnE' HnD' Hcs Hsize Hmalloc Hfuel.
  assert (Hlen : Z.of_nat (length (file tag')) = Z.of_nat (length (file tag))).
  { unfold file. cbn [encode_chunks flat_map fst snd].
    rewrite !length_app, !Nat2Z.inj_add, !length_encode_chunk, Htag, Htag'.
    reflexivity. }
  unfold main, file.
  rewrite !main_read_chunks_walk;
    try assumption; try (cbn [length]; lia);
    try (constructor; [split; assumption | exact Hcs]).
  2: { fold (file tag'). rewrite Hlen. exact Hsize. }
  cbn [chunks_of map app hd fst snd].
  change (GetIhdrChunkData host_le (chunk_of tag payload) ihdr (IsLittleEndian host_le))
    with (GetIhdrChunkData host_le (chunk_of tag' payload) ihdr (IsLittleEndian host_le)).
  destruct (GetIhdrChunkData host_le (chunk_of tag' payload) ihdr (IsLittleEndian host_le))
    as [ihdr'|e]; [|reflexivity].
  unfold DecompressIdatChuncks.
  rewrite (compressed_input_skips_first ULONG_MAX fresh
             (chunk_of tag payload) (chunk_of tag' payload))
    by (apply not_image_data_chunk_of; assumption).
  rewrite (compressed_size_skips_first ULONG_MAX fresh
             (chunk_of tag payload) (chunk_of tag' payload))
    by (apply not_image_data_chunk_of; assumption).
  reflexivity.
Qed.

(** X22.  A file in which the [IEND] chunk comes right after the
    signature has that chunk validated as the header: with a payload of
    fewer than 13 bytes, [main] fails with the message of a header that is
    too short. *)
Theorem IEND_chunk_is_validated_as_header
        (pe trailing : list byte) (beyond : memory) (fuel : nat) (ihdr : Ihdr)
        (uncompressedDestination : memory) :
  Z.of_nat (length pe) < 13 ->
  Z.of_nat (length (pngSignature ++ encode_chunk IEND_tag pe ++ trailing)) < 2 ^ 31 ->
  (forall n, malloc_ok n = true) ->
  (0 < fuel)%nat ->
  main fuel (Some (pngSignature ++ encode_chunk IEND_tag pe ++ trailing)) beyond ihdr
       uncompressedDestination
  = Some (Err IhdrTooShort).
Proof.
  intros Hpe Hsize Hmalloc Hfuel. unfold main.
  pose proof (main_read_chunks_walk [] pe trailing beyond fuel
                (Forall_nil _) Hsize Hmalloc Hfuel) as Hwalk.
  cbn [encode_chunks flat_map app] in Hwalk. rewrite Hwalk.
  cbn [chunks_of map app hd]. unfold GetIhdrChunkData.
  cbn [chunk_of dataLength]. unfold IHDR_LENGTH.
  destruct (Z.ltb_spec (Z.of_nat (length pe)) 13); [reflexivity|lia].
Qed.

End WholeProgram.

(** X23.  The bytes that [uncompress] writes never reach what [main]
    prints: two decompressors that agree on the return code and on the
    number of bytes written give the same run of [main] on every file. *)
Theorem inflated_bytes_never_reach_output
        (host_le : bool) (ULONG_MAX sizeof_Chunk : Z) (malloc_ok malloc_again_ok : Z -> bool)
        (fresh : memory) (crc32 : Z -> list byte -> Z)
        (uncompress uncompress' : Z -> list byte -> Z * list byte)
        (fuel : nat) (file : option (list byte)) (beyond : memory) (ihdr : Ihdr)
        (uncompressedDestination : memory) :
  (forall destLen source,
      fst (uncompress destLen source) = fst (uncompress' destLen source)
      /\ length (snd (uncompress destLen source))
         = length (snd (uncompress' destLen source))) ->
  main host_le ULONG_MAX sizeof_Chunk malloc_ok malloc_again_ok fresh crc32 uncompress
       fuel file beyond ihdr uncompressedDestination
  = main host_le ULONG_MAX sizeof_Chunk malloc_ok malloc_again_ok fresh crc32 uncompress'
         fuel file beyond ihdr uncompressedDestination.
Proof. apply main_ignores_inflated_bytes. Qed.


(** ** The further properties at work *)

Lemma ToLittleEndian_involutive_witness :
  0 <= 0x0000000D < 2 ^ 32
  /\ ToLittleEndian 0x0000000D = 0x0D000000
  /\ ToLittleEndian (ToLittleEndian 0x0000000D) = 0x0000000D.
Proof.
  assert (H : 0 <= 0x0000000D < 2 ^ 32) by lia.
  split; [exact H|]. split; [reflexivity|].
  exact (proj2 (ToLittleEndian_involutive 0x0000000D H)).
Defined.

Lemma checksum_is_crc_of_type_and_payload_witness :
  chunk_crc zlib_crc32 IEND_tag [] = zlib_crc32 0 (IEND_tag ++ [])
  /\ zlib_crc32 0 (IEND_tag ++ []) = 0xAE426082.
Proof.
  split; [|vm_compute; reflexivity].
  apply (checksum_is_crc_of_type_and_payload zlib_crc32 IEND_tag []).
  - reflexivity.
  - apply zlib_crc32_app.
  - intros buf. apply zlib_crc32_fits32. unfold fits32. lia.
Defined.


Lemma ReadChunk_reads_back_encoded_chunk_witness :
  length IHDR_tag = 4%nat
  /\ serves_all (Z.of_nat (length (ihdr_payload 8 TRUECOLOR))) = true
  /\ ReadChunk true serves_all zlib_crc32
       (buffer_memory
          (pngSignature ++ encode_chunk zlib_crc32 IHDR_tag (ihdr_payload 8 TRUECOLOR)
           ++ encode_chunk zlib_crc32 IEND_tag []) stale)
       8 (IsLittleEndian true)
     = (Ok (mkChunk 13 (IHDR_tag ++ [x00]) (ihdr_payload 8 TRUECOLOR)), 33).
Proof.
  split; [reflexivity|]. split; [reflexivity|].
  apply (ReadChunk_reads_back_encoded_chunk true serves_all zlib_crc32
           pngSignature IHDR_tag (ihdr_payload 8 TRUECOLOR)
           (encode_chunk zlib_crc32 IEND_tag []) stale).
  - reflexivity.
  - vm_compute. reflexivity.
  - reflexivity.
Defined.

Lemma ReadChunk_fails_when_malloc_fails_witness :
  refuses_large (wire_length (buffer_memory signature_only stale) 8) = false
  /\ ReadChunk true refuses_large zlib_crc32
       (buffer_memory signature_only stale) 8 (IsLittleEndian true)
     = (Err CantAllocateChunkData, 16)
  /\ main_loop true sizeof_Chunk_32 refuses_large zlib_crc32 1
       (buffer_memory signature_only stale) 8 [] 0 (IsLittleEndian true)
     = Some (Err CantAllocateChunkData).
Proof.
  assert (H : refuses_large (wire_length (buffer_memory signature_only stale) 8)
              = false) by reflexivity.
  split; [exact H|].
  destruct (ReadChunk_fails_when_malloc_fails true sizeof_Chunk_32 refuses_large
              zlib_crc32 (buffer_memory signature_only stale) 8 H) as [Hread Hloop].
  split; [exact Hread | exact (Hloop 0%nat [] 0)].
Defined.

Lemma ReadChunk_moves_cursor_past_record_witness :
  serves_all (wire_length (buffer_memory tampered_png zeroes) 8) = true
  /\ fst (ReadChunk true serves_all zlib_crc32 (buffer_memory tampered_png zeroes) 8
                    (IsLittleEndian true))
     = Err (ChecksumFailed 2423739358 3236401053)
  /\ snd (ReadChunk true serves_all zlib_crc32 (buffer_memory tampered_png zeroes) 8
                    (IsLittleEndian true))
     = 33.
Proof.
  split; [reflexivity|]. split; [vm_compute; reflexivity|].
  rewrite (ReadChunk_moves_cursor_past_record true serves_all zlib_crc32
             (buffer_memory tampered_png zeroes) 8 eq_refl).
  reflexivity.
Defined.

Lemma ReadChunk_returns_well_formed_chunk_witness :
  ReadChunk true serves_all zlib_crc32 (buffer_memory tiny_png zeroes) 8
            (IsLittleEndian true)
  = (Ok (chunk_of IHDR_tag (ihdr_payload 8 TRUECOLOR)), 33)
  /\ well_formed_chunk (chunk_of IHDR_tag (ihdr_payload 8 TRUECOLOR))
  /\ wire_crc (buffer_memory tiny_png zeroes) 8 = 2423739358.
Proof.
  assert (H : ReadChunk true serves_all zlib_crc32 (buffer_memory tiny_png zeroes) 8
                        (IsLittleEndian true)
              = (Ok (chunk_of IHDR_tag (ihdr_payload 8 TRUECOLOR)), 33))
    by (vm_compute; reflexivity).
  split; [exact H|].
  destruct (ReadChunk_returns_well_formed_chunk true serves_all zlib_crc32
              (buffer_memory tiny_png zeroes) 8 33
              (chunk_of IHDR_tag (ihdr_payload 8 TRUECOLOR)) H)
    as (Hwf & _ & _ & Hcrc).
  split; [exact Hwf|]. rewrite Hcrc. vm_compute. reflexivity.
Defined.

Lemma walk_ends_at_first_IEND_witness :
  Z.of_nat 3 < 2 ^ 32
  /\ main_read_chunks true sizeof_Chunk_32 serves_all zlib_crc32 3 (Some tiny_png) zeroes
     = Some (Ok (chunks_of [(IHDR_tag, ihdr_payload 8 TRUECOLOR);
                            (IDAT_tag, zlib_stored scanline)]
                 ++ [chunk_of IEND_tag []], 3, 72))
  /\ exists before last,
       chunks_of [(IHDR_tag, ihdr_payload 8 TRUECOLOR); (IDAT_tag, zlib_stored scanline)]
       ++ [chunk_of IEND_tag []] = before ++ [last]
       /\ Forall (fun c => well_formed_chunk c /\ type c <> LAST_CHUNK_TYPE_SIGNATURE)
                 before
       /\ well_formed_chunk last
       /\ type last = LAST_CHUNK_TYPE_SIGNATURE
       /\ 3 = Z.of_nat (length (chunks_of [(IHDR_tag, ihdr_payload 8 TRUECOLOR);
                                           (IDAT_tag, zlib_stored scanline)]
                                ++ [chunk_of IEND_tag []])).
Proof.
  assert (Hfuel : Z.of_nat 3 < 2 ^ 32) by reflexivity.
  assert (H : main_read_chunks true sizeof_Chunk_32 serves_all zlib_crc32 3
                (Some tiny_png) zeroes
              = Some (Ok (chunks_of [(IHDR_tag, ihdr_payload 8 TRUECOLOR);
                                     (IDAT_tag, zlib_stored scanline)]
                          ++ [chunk_of IEND_tag []], 3, 72)))
    by (vm_compute; reflexivity).
  split; [exact Hfuel|]. split; [exact H|].
  exact (walk_ends_at_first_IEND true sizeof_Chunk_32 serves_all zlib_crc32 3
           (Some tiny_png) zeroes _ 3 72 Hfuel H).
Defined.

Lemma AppendChunk_stores_chunk_last_witness :
  1 <= 2 <= Z.of_nat (length [chunk_of IHDR_tag (ihdr_payload 8 TRUECOLOR)]) + 1
  /\ AppendChunk sizeof_Chunk_32 serves_all
       [chunk_of IHDR_tag (ihdr_payload 8 TRUECOLOR)] 2 (chunk_of IEND_tag [])
     = Ok [chunk_of IHDR_tag (ihdr_payload 8 TRUECOLOR); chunk_of IEND_tag []]
  /\ match AppendChunk sizeof_Chunk_32 serves_all
             [chunk_of IHDR_tag (ihdr_payload 8 TRUECOLOR)] 2 (chunk_of IEND_tag []) with
     | Ok chunkDynamicArray' =>
         serves_all (2 * sizeof_Chunk_32) = true
         /\ Z.of_nat (length chunkDynamicArray') = 2
         /\ nth_error chunkDynamicArray' (Z.to_nat (2 - 1)) = Some (chunk_of IEND_tag [])
         /\ forall i, (i < Z.to_nat (2 - 1))%nat ->
                      nth_error chunkDynamicArray' i
                      = nth_error [chunk_of IHDR_tag (ihdr_payload 8 TRUECOLOR)] i
     | Err e => serves_all (2 * sizeof_Chunk_32) = false /\ e = CantReallocateChunkArray
     end.
Proof.
  assert (H : 1 <= 2 <= Z.of_nat (length [chunk_of IHDR_tag (ihdr_payload 8 TRUECOLOR)]) + 1)
    by (cbn [length]; lia).
  split; [exact H|]. split; [reflexivity|].
  exact (AppendChunk_stores_chunk_last sizeof_Chunk_32 serves_all
           [chunk_of IHDR_tag (ihdr_payload 8 TRUECOLOR)] 2 (chunk_of IEND_tag []) H).
Defined.

Lemma corrupt_record_fails_whole_walk_witness :
  Forall (fun c : list byte * list byte => length (fst c) = 4%nat /\ fst c <> IEND_tag)
         [(IHDR_tag, ihdr_payload 8 TRUECOLOR)]
  /\ chunk_crc zlib_crc32 IDAT_tag [] <> chunk_crc zlib_crc32 IDAT_tag (map mk_byte [1; 2; 3])
  /\ Z.of_nat (length tampered_idat_png) < 2 ^ 31
  /\ main_read_chunks true sizeof_Chunk_32 serves_all zlib_crc32 2
       (Some tampered_idat_png) zeroes
     = Some (Err (ChecksumFailed (chunk_crc zlib_crc32 IDAT_tag [])
                                 (chunk_crc zlib_crc32 IDAT_tag (map mk_byte [1; 2; 3])))).
Proof.
  assert (Htags : Forall (fun c : list byte * list byte =>
                            length (fst c) = 4%nat /\ fst c <> IEND_tag)
                         [(IHDR_tag, ihdr_payload 8 TRUECOLOR)])
    by (repeat constructor; cbn [fst]; discriminate).
  assert (Hbad : chunk_crc zlib_crc32 IDAT_tag []
                 <> chunk_crc zlib_crc32 IDAT_tag (map mk_byte [1; 2; 3]))
    by (vm_compute; discriminate).
  assert (Hsize : Z.of_nat (length tampered_idat_png) < 2 ^ 31) by (vm_compute; reflexivity).
  split; [exact Htags|]. split; [exact Hbad|]. split; [exact Hsize|].
  apply (corrupt_record_fails_whole_walk true sizeof_Chunk_32 serves_all zlib_crc32
           [(IHDR_tag, ihdr_payload 8 TRUECOLOR)] IDAT_tag (map mk_byte [1; 2; 3])
           (encode_chunk zlib_crc32 IEND_tag []) (chunk_crc zlib_crc32 IDAT_tag [])
           zeroes 2 Htags eq_refl (chunk_crc_range _ _ _) Hbad Hsize (fun n => eq_refl)).
  cbn [length]. lia.
Defined.

Lemma FillBuffer_compares_eight_bytes_witness :
  three_bytes <> []
  /\ FillBuffer (Some three_bytes) IEND_after_signature 3
     = Ok (buffer_memory three_bytes IEND_after_signature, 8)
  /\ FillBuffer (Some three_bytes) zeroes 3 = Err InvalidPngSignature.
Proof.
  assert (H : three_bytes <> []) by discriminate.
  split; [exact H|]. split.
  - exact (eq_trans (FillBuffer_compares_eight_bytes three_bytes IEND_after_signature H) eq_refl).
  - exact (eq_trans (FillBuffer_compares_eight_bytes three_bytes zeroes H) eq_refl).
Defined.


Lemma GetIhdrChunkData_accepts_only_the_table_witness :
  Z.of_nat (length (data (chunk_of IHDR_tag (ihdr_payload 8 TRUECOLOR))))
  = dataLength (chunk_of IHDR_tag (ihdr_payload 8 TRUECOLOR))
  /\ GetIhdrChunkData true (chunk_of IHDR_tag (ihdr_payload 8 TRUECOLOR)) ihdr_zeroed
                      (IsLittleEndian true)
     = Ok (mkIhdr 1 1 8 TRUECOLOR x00 x00 x00)
  /\ legal_pair 8 TRUECOLOR = true
  /\ bitDepth ihdr_zeroed / 256 = 0.
Proof.
  assert (Hdata : Z.of_nat (length (data (chunk_of IHDR_tag (ihdr_payload 8 TRUECOLOR))))
                  = dataLength (chunk_of IHDR_tag (ihdr_payload 8 TRUECOLOR)))
    by reflexivity.
  assert (H : GetIhdrChunkData true (chunk_of IHDR_tag (ihdr_payload 8 TRUECOLOR))
                ihdr_zeroed (IsLittleEndian true)
              = Ok (mkIhdr 1 1 8 TRUECOLOR x00 x00 x00)) by (vm_compute; reflexivity).
  split; [exact Hdata|]. split; [exact H|].
  destruct (GetIhdrChunkData_accepts_only_the_table
              (chunk_of IHDR_tag (ihdr_payload 8 TRUECOLOR)) ihdr_zeroed
              (mkIhdr 1 1 8 TRUECOLOR x00 x00 x00) Hdata H)
    as (_ & _ & _ & _ & _ & _ & _ & Hpair & _ & _ & _ & Hclean & _).
  split; [exact Hpair | exact Hclean].
Defined.

Lemma GetIhdrChunkData_judges_by_the_table_witness :
  0 < 1 < 2 ^ 32
  /\ (byte_val x00 = 0 \/ byte_val x00 = 1)
  /\ 13 <= 13
  /\ 0 <= bitDepth ihdr_zeroed < 256
  /\ 0 <= colorType ihdr_zeroed < 256
  /\ GetIhdrChunkData true
       (mkChunk 13 (IHDR_tag ++ [x00])
                (be32_bytes 1 ++ be32_bytes 1 ++ [x08; x02; x00; x00; x00] ++ []))
       ihdr_zeroed (IsLittleEndian true)
     = Ok (mkIhdr 1 1 8 2 x00 x00 x00)
  /\ GetIhdrChunkData true
       (mkChunk 13 (IHDR_tag ++ [x00])
                (be32_bytes 1 ++ be32_bytes 1 ++ [x04; x02; x00; x00; x00] ++ []))
       ihdr_zeroed (IsLittleEndian true)
     = Err IhdrInvalidPair.
Proof.
  assert (H1 : 0 < 1 < 2 ^ 32) by (split; reflexivity).
  assert (Him : byte_val x00 = 0 \/ byte_val x00 = 1) by (left; reflexivity).
  assert (Hlen : 13 <= 13) by lia.
  assert (Hz : 0 <= 0 < 256) by lia.
  split; [exact H1|]. split; [exact Him|]. split; [exact Hlen|].
  split; [exact Hz|]. split; [exact Hz|]. split.
  - exact (eq_trans (GetIhdrChunkData_judges_by_the_table 1 1 13 x08 x02 x00
                       (IHDR_tag ++ [x00]) [] ihdr_zeroed H1 H1 Him Hlen Hz Hz) eq_refl).
  - exact (eq_trans (GetIhdrChunkData_judges_by_the_table 1 1 13 x04 x02 x00
                       (IHDR_tag ++ [x00]) [] ihdr_zeroed H1 H1 Him Hlen Hz Hz) eq_refl).
Defined.

Lemma GetIhdrChunkData_refuses_on_big_endian_host_witness :
  nth 8 (data (chunk_of IHDR_tag (ihdr_payload 8 TRUECOLOR))) x00 <> x00
  /\ exists e,
       GetIhdrChunkData false (chunk_of IHDR_tag (ihdr_payload 8 TRUECOLOR)) ihdr_zeroed
                        (IsLittleEndian false) = Err e
       /\ (e = IhdrTooShort \/ e = IhdrWidthZero \/ e = IhdrHeightZero
           \/ e = IhdrInvalidBitDepth).
Proof.
  assert (H : nth 8 (data (chunk_of IHDR_tag (ihdr_payload 8 TRUECOLOR))) x00 <> x00)
    by (vm_compute; discriminate).
  split; [exact H|].
  exact (GetIhdrChunkData_refuses_on_big_endian_host
           (chunk_of IHDR_tag (ihdr_payload 8 TRUECOLOR)) ihdr_zeroed H).
Defined.


Lemma sourceLen_is_total_of_IDAT_lengths_witness :
  Forall well_formed_chunk two_idat
  /\ idat_total two_idat <= ULONG_MAX_32
  /\ idat_total two_idat = 5
  /\ Z.of_nat (length (compressed_input ULONG_MAX_32 stale two_idat
                                        (Z.of_nat (length two_idat)))) = 5.
Proof.
  assert (Hwf : Forall well_formed_chunk two_idat)
    by (repeat constructor).
  assert (Hmax : idat_total two_idat <= ULONG_MAX_32) by (vm_compute; discriminate).
  split; [exact Hwf|]. split; [exact Hmax|]. split; [reflexivity|].
  exact (eq_trans (sourceLen_is_total_of_IDAT_lengths ULONG_MAX_32 stale two_idat Hwf Hmax)
                  eq_refl).
Defined.

Lemma single_IDAT_payload_reaches_uncompress_witness :
  Forall not_image_data [chunk_of IHDR_tag (ihdr_payload 8 TRUECOLOR)]
  /\ Forall not_image_data [chunk_of IEND_tag []]
  /\ zlib_stored scanline <> []
  /\ Z.of_nat (length (zlib_stored scanline)) <= ULONG_MAX_32
  /\ serves_all ULONG_MAX_32 = true
  /\ DecompressIdatChuncks ULONG_MAX_32 serves_all serves_all stale stored_uncompress
       ([chunk_of IHDR_tag (ihdr_payload 8 TRUECOLOR)]
        ++ chunk_of IDAT_tag (zlib_stored scanline) :: [chunk_of IEND_tag []])
       3 zeroes ULONG_MAX_32
     = Ok (4, memcpy_to stale 0 scanline)
  /\ DecompressIdatChuncks ULONG_MAX_32 serves_all refuses_large stale stored_uncompress
       ([chunk_of IHDR_tag (ihdr_payload 8 TRUECOLOR)]
        ++ chunk_of IDAT_tag (zlib_stored scanline) :: [chunk_of IEND_tag []])
       3 zeroes ULONG_MAX_32
     = Err CantAllocateUncompressedDestination.
Proof.
  assert (Hpre : Forall not_image_data [chunk_of IHDR_tag (ihdr_payload 8 TRUECOLOR)])
    by (repeat constructor; discriminate).
  assert (Hpost : Forall not_image_data [chunk_of IEND_tag []])
    by (repeat constructor; discriminate).
  assert (Hne : zlib_stored scanline <> []) by discriminate.
  assert (Hlen : Z.of_nat (length (zlib_stored scanline)) <= ULONG_MAX_32)
    by (vm_compute; discriminate).
  split; [exact Hpre|]. split; [exact Hpost|]. split; [exact Hne|]. split; [exact Hlen|].
  split; [reflexivity|]. split.
  - refine (eq_trans (single_IDAT_payload_reaches_uncompress ULONG_MAX_32 serves_all
                        serves_all stale stored_uncompress
                        [chunk_of IHDR_tag (ihdr_payload 8 TRUECOLOR)]
                        [chunk_of IEND_tag []] (zlib_stored scanline) zeroes ULONG_MAX_32
                        Hpre Hpost Hne Hlen eq_refl) _).
    vm_compute. reflexivity.
  - refine (eq_trans (single_IDAT_payload_reaches_uncompress ULONG_MAX_32 serves_all
                        refuses_large stale stored_uncompress
                        [chunk_of IHDR_tag (ihdr_payload 8 TRUECOLOR)]
                        [chunk_of IEND_tag []] (zlib_stored scanline) zeroes ULONG_MAX_32
                        Hpre Hpost Hne Hlen eq_refl) _).
    reflexivity.
Defined.

Lemma print_loop_never_ends_on_zero_step_witness :
  u32 (2 ^ 30 * 4) = 0
  /\ 0 <= 0 < 2 ^ 31
  /\ ulong ULONG_MAX_32 0 < 4
  /\ print_loop ULONG_MAX_32 1000 stale 4 (2 ^ 30) 0 = None.
Proof.
  assert (H1 : u32 (2 ^ 30 * 4) = 0) by reflexivity.
  assert (H2 : 0 <= 0 < 2 ^ 31) by (split; [discriminate | reflexivity]).
  assert (H3 : ulong ULONG_MAX_32 0 < 4) by reflexivity.
  split; [exact H1|]. split; [exact H2|]. split; [exact H3|].
  exact (print_loop_never_ends_on_zero_step ULONG_MAX_32 stale 4 (2 ^ 30) 0 1000 H1 H2 H3).
Defined.

Lemma print_loop_prints_every_stride_witness :
  0 < u32 (2 * 4)
  /\ 2 ^ 31 <= ULONG_MAX_32 + 1
  /\ 0 <= 18
  /\ 18 + u32 (2 * 4) <= 2 ^ 31
  /\ (Z.to_nat ((18 + u32 (2 * 4) - 1) / u32 (2 * 4)) < 4)%nat
  /\ print_loop ULONG_MAX_32 4 (fun i => mk_byte i) 18 2 0
     = Some (map mk_byte [0; 8; 16]).
Proof.
  assert (H1 : 0 < u32 (2 * 4)) by reflexivity.
  assert (H2 : 2 ^ 31 <= ULONG_MAX_32 + 1) by discriminate.
  assert (H3 : 0 <= 18) by discriminate.
  assert (H4 : 18 + u32 (2 * 4) <= 2 ^ 31) by discriminate.
  assert (H5 : (Z.to_nat ((18 + u32 (2 * 4) - 1) / u32 (2 * 4)) < 4)%nat)
    by (vm_compute; lia).
  split; [exact H1|]. split; [exact H2|]. split; [exact H3|]. split; [exact H4|].
  split; [exact H5|].
  exact (eq_trans (print_loop_prints_every_stride ULONG_MAX_32 (fun i => mk_byte i) 18 2 4
                     H1 H2 H3 H4 H5) eq_refl).
Defined.


Lemma main_needs_ULONG_MAX_bytes_witness :
  refuses_large ULONG_MAX_32 = false
  /\ DecompressIdatChuncks ULONG_MAX_32 refuses_large serves_all stale stored_uncompress
       two_idat 2 stale ULONG_MAX_32
     = Err CantAllocateCompressedSource
  /\ main true ULONG_MAX_32 sizeof_Chunk_32 refuses_large serves_all stale zlib_crc32
          stored_uncompress 3 (Some tiny_png) zeroes ihdr_zeroed stale
     <> Some (Ok [xcc]).
Proof.
  assert (H : refuses_large ULONG_MAX_32 = false) by reflexivity.
  split; [exact H|].
  destruct (main_needs_ULONG_MAX_bytes true ULONG_MAX_32 sizeof_Chunk_32 refuses_large serves_all
              stale zlib_crc32 stored_uncompress H) as [Hinflate Hmain].
  split; [apply Hinflate | apply Hmain].
Defined.

Lemma first_chunk_is_header_whatever_its_type_witness :
  length IHDR_tag = 4%nat /\ IHDR_tag <> IEND_tag /\ IHDR_tag <> IDAT_tag
  /\ length tEXt_tag = 4%nat /\ tEXt_tag <> IEND_tag /\ tEXt_tag <> IDAT_tag
  /\ Z.of_nat (length (tiny_png_headed IHDR_tag)) < 2 ^ 31
  /\ main true ULONG_MAX_32 sizeof_Chunk_32 serves_all serves_all stale zlib_crc32 stored_uncompress
          3 (Some (tiny_png_headed IHDR_tag)) zeroes ihdr_zeroed stale
     = main true ULONG_MAX_32 sizeof_Chunk_32 serves_all serves_all stale zlib_crc32
            stored_uncompress 3 (Some (tiny_png_headed tEXt_tag)) zeroes ihdr_zeroed stale.
Proof.
  assert (Hsize : Z.of_nat (length (tiny_png_headed IHDR_tag)) < 2 ^ 31)
    by (vm_compute; reflexivity).
  assert (Hcs : Forall (fun c : list byte * list byte =>
                          length (fst c) = 4%nat /\ fst c <> IEND_tag)
                       [(IDAT_tag, zlib_stored scanline)])
    by (repeat constructor; cbn [fst]; discriminate).
  repeat (split; [first [reflexivity | discriminate | exact Hsize]|]).
  apply (first_chunk_is_header_whatever_its_type true ULONG_MAX_32 sizeof_Chunk_32
           serves_all serves_all stale zlib_crc32 stored_uncompress IHDR_tag tEXt_tag
           (ihdr_payload 8 TRUECOLOR) [(IDAT_tag, zlib_stored scanline)] [] [] zeroes 3
           ihdr_zeroed stale);
    first [reflexivity | discriminate | exact Hsize | exact Hcs
          | intros n; reflexivity | cbn [length]; lia].
Defined.

Lemma IEND_chunk_is_validated_as_header_witness :
  Z.of_nat (length (@nil byte)) < 13
  /\ Z.of_nat (length (pngSignature ++ encode_chunk zlib_crc32 IEND_tag [] ++ [])) < 2 ^ 31
  /\ (forall n, serves_all n = true)
  /\ (0 < 1)%nat
  /\ main true ULONG_MAX_32 sizeof_Chunk_32 serves_all serves_all stale zlib_crc32 stored_uncompress
          1 (Some (pngSignature ++ encode_chunk zlib_crc32 IEND_tag [] ++ [])) zeroes
          ihdr_zeroed stale
     = Some (Err IhdrTooShort).
Proof.
  assert (H1 : Z.of_nat (length (@nil byte)) < 13) by reflexivity.
  assert (H2 : Z.of_nat (length (pngSignature ++ encode_chunk zlib_crc32 IEND_tag []
                                 ++ [])) < 2 ^ 31) by (vm_compute; reflexivity).
  assert (H3 : forall n, serves_all n = true) by (intros n; reflexivity).
  assert (H4 : (0 < 1)%nat) by lia.
  split; [exact H1|]. split; [exact H2|]. split; [exact H3|]. split; [exact H4|].
  exact (IEND_chunk_is_validated_as_header true ULONG_MAX_32 sizeof_Chunk_32 serves_all serves_all
           stale zlib_crc32 stored_uncompress [] [] zeroes 1 ihdr_zeroed stale
           H1 H2 H3 H4).
Defined.

Lemma inflated_bytes_never_reach_output_witness :
  (forall destLen source,
      fst (stored_uncompress destLen source) = fst (blanking_uncompress destLen source)
      /\ length (snd (stored_uncompress destLen source))
         = length (snd (blanking_uncompress destLen source)))
  /\ snd (stored_uncompress ULONG_MAX_32 (zlib_stored scanline)) = scanline
  /\ snd (blanking_uncompress ULONG_MAX_32 (zlib_stored scanline)) = [x00; x00; x00; x00]
  /\ main true ULONG_MAX_32 sizeof_Chunk_32 serves_all serves_all stale zlib_crc32 stored_uncompress
          3 (Some tiny_png) zeroes ihdr_zeroed stale
     = main true ULONG_MAX_32 sizeof_Chunk_32 serves_all serves_all stale zlib_crc32
            blanking_uncompress 3 (Some tiny_png) zeroes ihdr_zeroed stale.
Proof.
  assert (H : forall destLen source,
             fst (stored_uncompress destLen source)
             = fst (blanking_uncompress destLen source)
             /\ length (snd (stored_uncompress destLen source))
                = length (snd (blanking_uncompress destLen source))).
  { intros destLen source. unfold blanking_uncompress.
    destruct (stored_uncompress destLen source) as [code written]. cbn [fst snd].
    split; [reflexivity | symmetry; apply length_map]. }
  split; [exact H|]. split; [vm_compute; reflexivity|]. split; [vm_compute; reflexivity|].
  exact (inflated_bytes_never_reach_output true ULONG_MAX_32 sizeof_Chunk_32 serves_all serves_all
           stale zlib_crc32 stored_uncompress blanking_uncompress 3 (Some tiny_png) zeroes
           ihdr_zeroed stale H).
Defined.
